(** * youtube_script_auto: text normalisation, channel resolution and
      transcript acquisition

    A shallow embedding of the pure text utilities and of the two fallback
    chains of [youtube_script_auto.py], with the properties the
    specification states about them.

    Python [str] values are sequences of Unicode code points; they are
    modelled as [list N].  External collaborators (caption provider,
    yt-dlp, whisper, the file system) are modelled by a record of outcomes
    and an explicit state carrying the file system and a trace of calls. *)

From Stdlib Require Import NArith ZArith Ascii String List Bool Lia.
From Stdlib Require Import Sorted DecimalString DecimalN.
From stdpp Require Import base list gmap.

Open Scope N_scope.

(** ** Python strings *)

Abbreviation str := (list N).

(** An ASCII literal as a sequence of code points. *)
Definition lit (s : string) : str :=
  List.map N_of_ascii (list_ascii_of_string s).

(** [str.isspace] on one code point; the regular expression class [\s] on
    [str] patterns and the argument-less [str.strip] use the same set. *)
Definition isspace (c : N) : bool :=
  ((9 <=? c) && (c <=? 13)) || ((28 <=? c) && (c <=? 32))
  || (c =? 133) || (c =? 160) || (c =? 5760)
  || ((8192 <=? c) && (c <=? 8202))
  || (c =? 8232) || (c =? 8233) || (c =? 8239) || (c =? 8287)
  || (c =? 12288).

(** [re.sub] with the pattern for one or more whitespace characters:
    every maximal run of whitespace is replaced by [repl].  [in_run]
    records that the previous character was part of the run already
    replaced. *)
Fixpoint sub_ws_from (repl : str) (in_run : bool) (s : str) : str :=
  match s with
  | [] => []
  | c :: s' =>
      if isspace c
      then (if in_run then sub_ws_from repl true s'
            else repl ++ sub_ws_from repl true s')
      else c :: sub_ws_from repl false s'
  end.

Definition re_sub_ws (repl s : str) : str := sub_ws_from repl false s.

(** [re.sub] with a pattern that is one character class. *)
Definition re_sub_class (cls : N -> bool) (repl s : str) : str :=
  flat_map (fun c => if cls c then repl else [c]) s.

(** [str.lstrip] and [str.rstrip] for a set of characters given as a
    predicate. *)
Fixpoint lstrip_by (p : N -> bool) (s : str) : str :=
  match s with
  | [] => []
  | c :: s' => if p c then lstrip_by p s' else s
  end.

Fixpoint rstrip_by (p : N -> bool) (s : str) : str :=
  match s with
  | [] => []
  | c :: s' =>
      match rstrip_by p s' with
      | [] => if p c then [] else [c]
      | r => c :: r
      end
  end.

(** [s.strip()] *)
Definition strip (s : str) : str := rstrip_by isspace (lstrip_by isspace s).

(** [s.rstrip(chars)] *)
Definition in_chars (chars : str) (c : N) : bool :=
  existsb (N.eqb c) chars.

Definition rstrip_chars (chars s : str) : str := rstrip_by (in_chars chars) s.

(** [x or default] on strings: the empty string is falsy. *)
Definition str_or (x default : str) : str :=
  match x with
  | [] => default
  | _ => x
  end.

(** [s.startswith(prefix)] *)
Fixpoint startswith (prefix s : str) : bool :=
  match prefix, s with
  | [], _ => true
  | _ :: _, [] => false
  | p :: prefix', c :: s' => (p =? c) && startswith prefix' s'
  end.

(** [s.split(sep)] for a non-empty separator: occurrences are found left
    to right and do not overlap.  [cur] holds the current piece reversed;
    the recursion is on a bound [n] on the length of what is left. *)
Fixpoint split_from (n : nat) (sep : str) (cur : str) (s : str)
  : list str :=
  match n with
  | O => [rev cur ++ s]
  | S n' =>
      match s with
      | [] => [rev cur]
      | c :: s' =>
          if startswith sep s
          then rev cur :: split_from n' sep [] (drop (length sep) s)
          else split_from n' sep (c :: cur) s'
      end
  end.

Definition str_split (sep s : str) : list str :=
  split_from (S (length s)) sep [] s.

(** [pieces[-1]] and [pieces[0]]; [str_split] never returns an empty list
    (lemma [str_split_nonempty]), so the default is never used. *)
Definition last_piece (pieces : list str) : str := List.last pieces [].
Definition first_piece (pieces : list str) : str := List.hd [] pieces.

(** ** Text normaliser *)

(** [clean_text], lines 43-45. *)
Definition clean_text (text : str) : str :=
  strip (re_sub_ws (lit " ") text).

Section Unicodedata.

(** The tables of the [unicodedata] module are not part of the program:
    [unicodedata.normalize('NFKD', .)] and
    [unicodedata.category(.) == 'Mn'] are taken as parameters. *)
Variable normalize_NFKD : str -> str.
Variable category_is_Mn : N -> bool.

(** [_normalize_visible_text], lines 48-57. *)
Definition _normalize_visible_text (text : str) : str :=
  match text with
  | [] => []
  | _ =>
      let decomposed := normalize_NFKD text in
      let without_marks :=
        List.filter (fun c => negb (category_is_Mn c)) decomposed in
      let normalized_spaces := strip (re_sub_ws (lit " ") without_marks) in
      normalized_spaces
  end.

(** The character class of line 64: less-than, greater-than, colon,
    backslash, slash, backslash again, vertical bar, question mark,
    star and double quote. *)
Definition forbidden (c : N) : bool :=
  in_chars [60; 62; 58; 92; 47; 92; 124; 63; 42; 34] c.

(** [make_filesafe_title], lines 60-73. *)
Definition make_filesafe_title (title : str) : str :=
  let base := str_or (_normalize_visible_text title) (lit "script") in
  let base := re_sub_class forbidden (lit " ") base in
  let base := List.filter (fun ch => 32 <=? ch) base in
  let base := rstrip_chars (lit "_") (strip (re_sub_ws (lit "_") base)) in
  let base :=
    if (150 <? length base)%nat
    then rstrip_chars (lit "_") (take 150 base)
    else base in
  str_or base (lit "script").

End Unicodedata.

(** On ASCII text NFKD is the identity and no character is a nonspacing
    mark; these instances are used to run the functions on ASCII inputs. *)
Definition ascii_NFKD (s : str) : str := s.
Definition ascii_is_Mn (c : N) : bool := false.

(** The video id of line 88:
    [video_url.split("v=")[-1].split("&")[0]]. *)
Definition video_id_of (video_url : str) : str :=
  first_piece (str_split (lit "&") (last_piece (str_split (lit "v=") video_url))).

(** [sep.join(pieces)] *)
Fixpoint str_join (sep : str) (pieces : list str) : str :=
  match pieces with
  | [] => []
  | [p] => p
  | p :: rest => p ++ sep ++ str_join sep rest
  end.

(** ** Exceptions, state and collaborators *)

Inductive exn_class := TranscriptsDisabled | NoTranscriptFound | OtherException.

(** A raised exception: its class (every class here derives from
    [Exception]) and its message. *)
Record exn := { exn_class_of : exn_class; exn_msg : str }.

(** The clause [except (TranscriptsDisabled, NoTranscriptFound)]. *)
Definition no_captions (e : exn) : bool :=
  match exn_class_of e with
  | TranscriptsDisabled | NoTranscriptFound => true
  | OtherException => false
  end.

Inductive outcome (A : Type) : Type :=
| Return (a : A)
| Raise (e : exn).
Arguments Return {A} a.
Arguments Raise {A} e.

(** An entry of a yt-dlp listing; [None] is a key that is absent (or, for
    the keys read with [.get(key)], holds [None]). *)
Record entry := {
  e_id : option str;
  e_title : option str;
  e_url : option str;
  e_duration : option Z;
  e_channel_id : option str;
  e_channel : option str
}.

(** The dictionary returned by [extract_info]; [None] is a dictionary
    without the key [entries]. *)
Record info := { entries : option (list entry) }.

(** The dictionaries built at lines 233-239. *)
Record video := {
  v_index : nat;
  v_title : str;
  v_url : str;
  v_id : str;
  v_duration : Z
}.

(** Calls to the collaborators, in the order they are made. *)
Inductive event :=
| CallFetchTranscript (video_id : str) (languages : list str)
| CallDownload (video_url filename : str)
| CallLoadModel (name : str)
| CallTranscribe (audio_file : str)
| CallRemove (path : str)
| CallExtractInfo (query : str)
| CallStError (message : str).

(** What the collaborators answer. *)
Record world := {
  transcript_fetch : str -> list str -> outcome (list str);
  ydl_download : str -> str -> outcome unit;
  whisper_load_model : str -> outcome unit;
  model_transcribe : str -> outcome str;
  ydl_extract_info : str -> outcome (option info)
}.

(** The files that exist and the calls made so far. *)
Record state := { files : gset str; trace : list event }.

Definition M (A : Type) : Type := state -> outcome A * state.

Definition ret {A} (a : A) : M A := fun st => (Return a, st).

Definition raise {A} (e : exn) : M A := fun st => (Raise e, st).

Definition bind {A B} (m : M A) (k : A -> M B) : M B :=
  fun st =>
    match m st with
    | (Return a, st') => k a st'
    | (Raise e, st') => (Raise e, st')
    end.

(** [try: m  except Exception as e: handler e] *)
Definition try_except {A} (m : M A) (handler : exn -> M A) : M A :=
  fun st =>
    match m st with
    | (Return a, st') => (Return a, st')
    | (Raise e, st') => handler e st'
    end.

Notation "x <~ m ;; k" := (bind m (fun x => k))
  (at level 100, m at next level, right associativity).

Definition log (ev : event) : M unit :=
  fun st => (Return tt, {| files := files st; trace := trace st ++ [ev] |}).

(** A call to a collaborator: it is recorded, then answers or raises. *)
Definition call {A} (ev : event) (answer : outcome A) : M A :=
  _ <~ log ev ;; (fun st => (answer, st)).

Definition os_path_exists (path : str) : M bool :=
  fun st => (Return (bool_decide (path ∈ files st)), st).

Definition os_remove (path : str) : M unit :=
  _ <~ log (CallRemove path) ;;
  fun st =>
    if bool_decide (path ∈ files st)
    then (Return tt, {| files := files st ∖ {[path]}; trace := trace st |})
    else (Raise {| exn_class_of := OtherException; exn_msg := path |}, st).

(** [ydl.download([video_url])] with [outtmpl = filename]: when it returns,
    the file is there. *)
Definition ydl_download_to (w : world) (video_url filename : str) : M unit :=
  _ <~ call (CallDownload video_url filename) (ydl_download w video_url filename) ;;
  fun st => (Return tt, {| files := {[filename]} ∪ files st; trace := trace st |}).

(** ** Transcript acquirer *)

(** [download_audio], lines 76-84. *)
Definition download_audio (w : world) (video_url filename : str) : M str :=
  _ <~ ydl_download_to w video_url filename ;;
  ret filename.

(** [get_youtube_script], lines 87-116.  [safe_title] of line 91 is
    computed by a total pure function and never used; it is left out. *)
Definition get_youtube_script (w : world) (video_url lang title : str)
  : M (option str) :=
  let video_id := video_id_of video_url in
  try_except
    (transcript_list <~
       call (CallFetchTranscript video_id [lang; lit "en"; lit "ko"])
            (transcript_fetch w video_id [lang; lit "en"; lit "ko"]) ;;
     let text_result := str_join (lit " ") transcript_list in
     let text_result := clean_text text_result in
     ret (Some text_result))
    (fun e =>
       if no_captions e then
         try_except
           (audio_file <~ download_audio w video_url (lit "audio.mp3") ;;
            _ <~ call (CallLoadModel (lit "small"))
                      (whisper_load_model w (lit "small")) ;;
            result_text <~ call (CallTranscribe audio_file)
                                (model_transcribe w audio_file) ;;
            let text_result := clean_text result_text in
            present <~ os_path_exists audio_file ;;
            _ <~ (if present then os_remove audio_file else ret tt) ;;
            ret (Some text_result))
           (fun _ => ret None)
       else ret None).

(** ** Channel resolver *)

(** Truthiness of an optional string: [None] and the empty string are
    falsy. *)
Definition truthy (o : option str) : bool :=
  match o with
  | Some (_ :: _) => true
  | _ => false
  end.

(** [a or b] *)
Definition opt_or (a b : option str) : option str :=
  if truthy a then a else b.

(** [entries[:max_results]], with Python's meaning of a negative bound. *)
Definition slice_to {A} (n : Z) (l : list A) : list A :=
  if (0 <=? n)%Z then take (Z.to_nat n) l
  else take (length l - Z.to_nat (- n)) l.

Definition no_title : str := [51228; 47785; 32; 50630; 51020].

Definition fetch_failed_prefix : str :=
  [85; 82; 76; 50640; 49436; 32; 50689; 49345; 32; 47785; 47197; 32;
   44032; 51256; 50724; 44592; 32; 49892; 54056; 58; 32].

Definition error_prefix : str := [50724; 47448; 32; 48156; 49373; 58; 32].

(** The loop of lines 225-239 over [enumerate(..., i)]. *)
Fixpoint videos_from (i : nat) (es : list entry) : list video :=
  match es with
  | [] => []
  | entry :: rest =>
      let video_id := e_id entry in
      if negb (truthy video_id) then videos_from (S i) rest
      else
        let title := default no_title (e_title entry) in
        let url :=
          str_or (default [] (e_url entry))
                 (lit "https://www.youtube.com/watch?v=" ++ default [] video_id) in
        let duration := default 0%Z (e_duration entry) in
        {| v_index := i; v_title := title; v_url := url;
           v_id := default [] video_id; v_duration := duration |}
        :: videos_from (S i) rest
  end.

(** [_get_videos_from_url], lines 211-243. *)
Definition _get_videos_from_url (w : world) (channel_url : str) (max_results : Z)
  : M (option (list video)) :=
  try_except
    (channel_info <~ call (CallExtractInfo channel_url)
                          (ydl_extract_info w channel_url) ;;
     match channel_info with
     | Some {| entries := Some es |} =>
         let videos := videos_from 1 (slice_to max_results es) in
         ret (match videos with [] => None | _ => Some videos end)
     | _ => ret None
     end)
    (fun e =>
       raise {| exn_class_of := OtherException;
                exn_msg := fetch_failed_prefix ++ exn_msg e |}).

(** Lines 166-182: the channel URL built from the first search result. *)
Definition search_channel_url (first_result : entry) : option str :=
  let channel_id := opt_or (e_channel_id first_result) (e_channel first_result) in
  let channel_name_found := e_channel first_result in
  if truthy channel_id || truthy channel_name_found then
    if truthy channel_id then
      let cid := default [] channel_id in
      if startswith (lit "@") cid || startswith (lit "UC") cid then
        if startswith (lit "@") cid
        then Some (lit "https://www.youtube.com/" ++ cid ++ lit "/videos")
        else Some (lit "https://www.youtube.com/channel/" ++ cid ++ lit "/videos")
      else Some (lit "https://www.youtube.com/channel/" ++ cid ++ lit "/videos")
    else if truthy channel_name_found
    then Some (lit "https://www.youtube.com/c/"
               ++ default [] channel_name_found ++ lit "/videos")
    else None
  else None.

Definition possible_urls (channel_name : str) : list str :=
  [ lit "https://www.youtube.com/@" ++ channel_name ++ lit "/videos";
    lit "https://www.youtube.com/c/" ++ channel_name ++ lit "/videos";
    lit "https://www.youtube.com/user/" ++ channel_name ++ lit "/videos";
    lit "https://www.youtube.com/channel/" ++ channel_name ++ lit "/videos" ].

(** The loop of lines 197-203; [Some r] is the [return videos] of
    line 201, [None] the end of the loop. *)
Fixpoint try_urls (w : world) (urls : list str) (max_results : Z)
  : M (option (option (list video))) :=
  match urls with
  | [] => ret None
  | url :: rest =>
      found <~ try_except
                 (videos <~ _get_videos_from_url w url max_results ;;
                  ret (match videos with
                       | Some (_ :: _) => Some videos
                       | _ => None
                       end))
                 (fun _ => ret None) ;;
      match found with
      | Some videos => ret (Some videos)
      | None => try_urls w rest max_results
      end
  end.

(** Lines 160-187; [Some r] is the [return] of line 185, [None] means that
    control reaches line 189. *)
Definition search_strategy (w : world) (channel_name : str) (max_results : Z)
  : M (option (option (list video))) :=
  try_except
    (let search_query := lit "ytsearch1:" ++ channel_name in
     search_info <~ call (CallExtractInfo search_query)
                         (ydl_extract_info w search_query) ;;
     match search_info with
     | Some {| entries := Some (first_result :: _) |} =>
         match search_channel_url first_result with
         | Some channel_url =>
             videos <~ _get_videos_from_url w channel_url max_results ;;
             ret (Some videos)
         | None => ret None
         end
     | _ => ret None
     end)
    (fun _ => ret None).

(** [get_channel_videos], lines 140-209.  Building the [YoutubeDL] object
    of line 158 is taken not to raise. *)
Definition get_channel_videos (w : world) (channel_name : str) (max_results : Z)
  : M (option (list video)) :=
  try_except
    (returned <~ search_strategy w channel_name max_results ;;
     match returned with
     | Some videos => ret videos
     | None =>
         returned <~ try_urls w (possible_urls channel_name) max_results ;;
         match returned with
         | Some videos => ret videos
         | None => ret (Some [])
         end
     end)
    (fun e =>
       _ <~ log (CallStError (error_prefix ++ exn_msg e)) ;;
       ret (Some [])).

(** Lines 452-455 of [main]: the search button. *)
Definition main_search (w : world) (search_term : str)
  : M (option (list video)) :=
  if startswith (lit "http") search_term
  then _get_videos_from_url w search_term 10
  else get_channel_videos w search_term 10.

Definition initial_state : state := {| files := ∅; trace := [] |}.

(** ** Predicates of the statements *)

Definition starts_with_space (s : str) : bool :=
  match s with
  | c :: _ => isspace c
  | [] => false
  end.

Definition ends_with (p : N -> bool) (s : str) : bool :=
  match last s with
  | Some c => p c
  | None => false
  end.

(** Two adjacent whitespace characters somewhere in [s]. *)
Fixpoint has_space_run (s : str) : bool :=
  match s with
  | c1 :: s' =>
      match s' with
      | c2 :: _ => (isspace c1 && isspace c2) || has_space_run s'
      | [] => false
      end
  | [] => false
  end.

(** [sep in s] *)
Fixpoint occurs (sep s : str) : bool :=
  startswith sep s ||
  match s with
  | [] => false
  | _ :: s' => occurs sep s'
  end.

(** The part of [s] before the first character [c] (all of [s] when [c]
    does not occur). *)
Fixpoint up_to (c : N) (s : str) : str :=
  match s with
  | [] => []
  | x :: s' => if x =? c then [] else x :: up_to c s'
  end.

(** Every whitespace character of [l] is a single space that follows a
    character that is not whitespace ([prev] tells whether the character
    before [l] is whitespace). *)
Fixpoint spaced (prev : bool) (l : str) : bool :=
  match l with
  | [] => true
  | c :: l' =>
      if isspace c then negb prev && (c =? 32) && spaced true l'
      else spaced false l'
  end.

(** ** Calls, listings and tactics of the statements *)

Definition safe_char (c : N) : Prop := forbidden c = false /\ 32 <= c.

(** The characters the specification lists as unsafe in a file name:
    the eight of the literal and the double quote. *)
Definition unsafe_chars : str := lit "<>:\/|?*" ++ [34].

Definition is_fetch_call (ev : event) : bool :=
  match ev with CallFetchTranscript _ _ => true | _ => false end.

Definition is_download_call (ev : event) : bool :=
  match ev with CallDownload _ _ => true | _ => false end.

Definition is_transcribe_call (ev : event) : bool :=
  match ev with CallTranscribe _ => true | _ => false end.

Definition is_load_call (ev : event) : bool :=
  match ev with CallLoadModel _ => true | _ => false end.

Definition count (p : event -> bool) (evs : list event) : nat :=
  length (List.filter p evs).

(** What caption retrieval answers for a call of [get_youtube_script]. *)
Definition caption_outcome (w : world) (video_url lang : str)
  : outcome (list str) :=
  transcript_fetch w (video_id_of video_url) [lang; lit "en"; lit "ko"].

Definition audio_file_name : str := lit "audio.mp3".

Definition logged (st : state) (evs : list event) (fs : gset str) : state :=
  {| files := fs; trace := trace st ++ evs |}.

Ltac run_script :=
  cbv beta iota zeta delta
    [get_youtube_script download_audio ydl_download_to os_remove
     os_path_exists try_except bind call log ret raise logged
     caption_outcome audio_file_name files trace].

(** Splits a goal into its cases and closes them from the answers of the
    collaborators at hand. *)
Ltac split_cases :=
  repeat match goal with
         | |- _ /\ _ => split
         | |- _ <-> _ => split
         | |- forall _, _ => intro
         | H : exists _, _ |- _ => destruct H
         | H : _ /\ _ |- _ => destruct H
         | H : _ \/ _ |- _ => destruct H
         end;
  try lia; try congruence; try done; eauto 8.

Ltac run_resolver :=
  cbv beta iota zeta delta
    [_get_videos_from_url search_strategy get_channel_videos main_search
     try_except bind call log ret raise logged files trace].

(** The value returned by the listing fetch for the answer of the
    provider. *)
Definition listing_result (max_results : Z) (answer : outcome (option info))
  : outcome (option (list video)) :=
  match answer with
  | Return (Some {| entries := Some es |}) =>
      match videos_from 1 (slice_to max_results es) with
      | [] => Return None
      | v :: vs => Return (Some (v :: vs))
      end
  | Return _ => Return None
  | Raise e =>
      Raise {| exn_class_of := OtherException;
               exn_msg := fetch_failed_prefix ++ exn_msg e |}
  end.

Definition lacks_id (entry : entry) : Prop := truthy (e_id entry) = false.

Definition is_search_call (ev : event) : bool :=
  match ev with
  | CallExtractInfo query => startswith (lit "ytsearch1:") query
  | _ => false
  end.

Ltac run_chain :=
  cbv beta iota zeta delta
    [search_strategy get_channel_videos try_except bind call log ret raise
     logged files trace].

(** The direct URLs: a guess fails when the listing fetch raises or
    returns [None]. *)
Definition listing_fails (w : world) (max_results : Z) (url : str) : Prop :=
  forall vs,
    listing_result max_results (ydl_extract_info w url) <> Return (Some vs).

(** ** Concrete collaborators *)

Definition error (msg : string) : exn :=
  {| exn_class_of := OtherException; exn_msg := lit msg |}.

Definition captions_disabled : exn :=
  {| exn_class_of := TranscriptsDisabled; exn_msg := lit "disabled" |}.

(** A video with two caption segments. *)
Definition world_captions : world :=
  {| transcript_fetch := fun _ _ => Return [lit " Hello  "; lit "world "];
     ydl_download := fun _ _ => Raise (error "no network");
     whisper_load_model := fun _ => Raise (error "no model");
     model_transcribe := fun _ => Raise (error "no model");
     ydl_extract_info := fun _ => Raise (error "no network") |}.

(** A video without captions whose audio downloads and whose
    transcription raises. *)
Definition world_transcription_fails : world :=
  {| transcript_fetch := fun _ _ => Raise captions_disabled;
     ydl_download := fun _ _ => Return tt;
     whisper_load_model := fun _ => Return tt;
     model_transcribe := fun _ => Raise (error "transcription failed");
     ydl_extract_info := fun _ => Raise (error "no network") |}.

Definition entry_without_id : entry :=
  {| e_id := None; e_title := Some (lit "untitled"); e_url := None;
     e_duration := None; e_channel_id := None; e_channel := None |}.

Definition entry_with_id (video_id : string) : entry :=
  {| e_id := Some (lit video_id); e_title := Some (lit "a title");
     e_url := None; e_duration := Some 60%Z;
     e_channel_id := None; e_channel := None |}.

(** A provider that lists [es] at every URL. *)
Definition world_listing (es : list entry) : world :=
  {| transcript_fetch := fun _ _ => Raise (error "no network");
     ydl_download := fun _ _ => Raise (error "no network");
     whisper_load_model := fun _ => Raise (error "no model");
     model_transcribe := fun _ => Raise (error "no model");
     ydl_extract_info := fun _ => Return (Some {| entries := Some es |}) |}.

Definition five_entries : list entry :=
  [entry_with_id "v1"; entry_without_id; entry_with_id "v3";
   entry_with_id "v4"; entry_with_id "v5"].

Definition search_hit : entry :=
  {| e_id := Some (lit "v0"); e_title := Some (lit "a talk"); e_url := None;
     e_duration := None; e_channel_id := Some (lit "UCabc");
     e_channel := Some (lit "TED") |}.

(** The search finds a channel whose videos page lists nothing, while the
    handle URL of the channel name lists one video. *)
Definition world_empty_channel_page : world :=
  {| transcript_fetch := fun _ _ => Raise (error "no network");
     ydl_download := fun _ _ => Raise (error "no network");
     whisper_load_model := fun _ => Raise (error "no model");
     model_transcribe := fun _ => Raise (error "no model");
     ydl_extract_info := fun query =>
       if startswith (lit "ytsearch1:") query
       then Return (Some {| entries := Some [search_hit] |})
       else if startswith (lit "https://www.youtube.com/channel/") query
       then Return (Some {| entries := Some [] |})
       else Return (Some {| entries := Some [entry_with_id "v1"] |}) |}.

Definition watch_url : str := lit "https://www.youtube.com/watch?v=abc123".

(** ** Further notions of the statements *)

(** The characters of [s] that are not whitespace, in order. *)
Definition nonspace (s : str) : str :=
  List.filter (fun c => negb (isspace c)) s.

Definition is_extract_call (ev : event) : bool :=
  match ev with CallExtractInfo _ => true | _ => false end.

(** A video without captions that is transcribed. *)
Definition world_speech : world :=
  {| transcript_fetch := fun _ _ => Raise captions_disabled;
     ydl_download := fun _ _ => Return tt;
     whisper_load_model := fun _ => Return tt;
     model_transcribe := fun _ => Return (lit " spoken   words ");
     ydl_extract_info := fun _ => Raise (error "no network") |}.

(** The search finds a channel; every listing fetch raises. *)
Definition world_search_only : world :=
  {| transcript_fetch := fun _ _ => Raise (error "no network");
     ydl_download := fun _ _ => Raise (error "no network");
     whisper_load_model := fun _ => Raise (error "no model");
     model_transcribe := fun _ => Raise (error "no model");
     ydl_extract_info := fun query =>
       if startswith (lit "ytsearch1:") query
       then Return (Some {| entries := Some [search_hit] |})
       else Raise (error "not found") |}.

(** The search raises; only the custom URL of a channel lists a video. *)
Definition world_custom_url : world :=
  {| transcript_fetch := fun _ _ => Raise (error "no network");
     ydl_download := fun _ _ => Raise (error "no network");
     whisper_load_model := fun _ => Raise (error "no model");
     model_transcribe := fun _ => Raise (error "no model");
     ydl_extract_info := fun query =>
       if startswith (lit "https://www.youtube.com/c/") query
       then Return (Some {| entries := Some [entry_with_id "v1"] |})
       else Raise (error "not found") |}.

(** ** Durations *)

(** [str(n)] for an integer. *)
Definition str_of_N (n : N) : str :=
  lit (NilEmpty.string_of_uint (N.to_uint n)).

Definition str_of_int (z : Z) : str :=
  match z with
  | Zneg p => 45 :: str_of_N (N.pos p)
  | _ => str_of_N (Z.to_N z)
  end.

(** The format specification [02d]: zero padding to two characters. *)
Definition format_02d (z : Z) : str :=
  let digits := str_of_int z in
  if (length digits <? 2)%nat then 48 :: digits else digits.

Definition unknown_duration : str := [50508; 32; 49688; 32; 50630; 51020].

Section IntOfFloat.

(** [int(float(seconds))]: floating point is not modelled, the conversion
    is a parameter; on an integer that a double represents exactly it is
    the identity. *)
Variable int_of_float : Z -> Z.

(** [format_duration], lines 245-258, on an integer or [None]. *)
Definition format_duration (seconds : option Z) : str :=
  match seconds with
  | None => unknown_duration
  | Some 0%Z => unknown_duration
  | Some seconds =>
      let seconds := int_of_float seconds in
      let hours := (seconds / 3600)%Z in
      let minutes := ((seconds mod 3600) / 60)%Z in
      let secs := (seconds mod 60)%Z in
      if (0 <? hours)%Z
      then str_of_int hours ++ lit ":" ++ format_02d minutes
           ++ lit ":" ++ format_02d secs
      else str_of_int minutes ++ lit ":" ++ format_02d secs
  end.

End IntOfFloat.

(** The conversion on integers that a double represents exactly. *)
Definition exact_int_of_float (z : Z) : Z := z.

Definition is_digit (c : N) : Prop := 48 <= c <= 57.

(** The number that two decimal digits denote. *)
Definition two_digit_value (s : str) : option Z :=
  match s with
  | [a; b] => Some (Z.of_N (a - 48) * 10 + Z.of_N (b - 48))%Z
  | _ => None
  end.

(** ** Sentence segmenter *)

(** The class of sentence terminators: full stop, exclamation mark and
    question mark. *)
Definition is_terminator (c : N) : bool :=
  (c =? 46) || (c =? 33) || (c =? 63).

(** The longest prefix of [s] whose characters satisfy [p], and the rest. *)
Fixpoint span (p : N -> bool) (s : str) : str * str :=
  match s with
  | [] => ([], [])
  | c :: s' =>
      if p c then let (a, b) := span p s' in (c :: a, b) else ([], s)
  end.

(** [re.split] on the pattern of line 270, a captured group of one or
    more terminators followed by one or more whitespace characters: the
    pieces between the matches alternate with the matched texts.  A run of
    terminators that no whitespace follows holds no match.  [cur] is the
    current piece reversed, [n] a bound on the length of what is left. *)
Fixpoint re_split_from (n : nat) (cur : str) (s : str) : list str :=
  match n with
  | O => [rev cur ++ s]
  | S n' =>
      match s with
      | [] => [rev cur]
      | c :: s' =>
          if is_terminator c then
            let (marks, rest) := span is_terminator s in
            let (spaces, rest') := span isspace rest in
            match spaces with
            | [] => re_split_from n' (rev marks ++ cur) rest
            | _ => rev cur :: (marks ++ spaces) :: re_split_from n' [] rest'
            end
          else re_split_from n' (c :: cur) s'
      end
  end.

Definition re_split_sentences (para : str) : list str :=
  re_split_from (S (length para)) [] para.

(** [re.search] with the pattern of line 277: terminators, then optional
    whitespace, at the end of [current]. *)
Definition ends_sentence (current : str) : bool :=
  ends_with is_terminator (rstrip_by isspace current).

(** The loop of lines 273-280 over the pieces of a paragraph. *)
Fixpoint sentences_loop (parts : list str) (current : str) (result : list str)
  : str * list str :=
  match parts with
  | [] => (current, result)
  | part :: rest =>
      match part with
      | [] => sentences_loop rest current result
      | _ =>
          let current := current ++ part in
          if ends_sentence current then
            match strip current with
            | [] => sentences_loop rest current result
            | sentence => sentences_loop rest [] (result ++ [sentence])
            end
          else sentences_loop rest current result
      end
  end.

(** The loop of lines 266-283 over the paragraphs. *)
Fixpoint paragraphs_loop (paragraphs : list str) (result : list str)
  : list str :=
  match paragraphs with
  | [] => result
  | para :: rest =>
      match strip para with
      | [] => paragraphs_loop rest result
      | _ =>
          let sentences := re_split_sentences para in
          let (current, result) := sentences_loop sentences [] result in
          match strip current with
          | [] => paragraphs_loop rest result
          | sentence => paragraphs_loop rest (result ++ [sentence])
          end
      end
  end.

(** [split_into_sentences], lines 261-285. *)
Definition split_into_sentences (text : str) : list str :=
  let paragraphs := str_split [10] text in
  match paragraphs_loop paragraphs [] with
  | [] => [text]
  | result => result
  end.

(** ** Markup escaping *)

(** [s.replace(old, new)] for a one-character [old]. *)
Definition str_replace_char (old : N) (new s : str) : str :=
  flat_map (fun c => if c =? old then new else [c]) s.

(** The expression of lines 322 and 335 of [create_pdf_from_text]. *)
Definition sentence_escaped (sentence : str) : str :=
  str_replace_char 62 (lit "&gt;")
    (str_replace_char 60 (lit "&lt;")
       (str_replace_char 38 (lit "&amp;") sentence)).

(** ** Handlers of the search buttons *)

(** What a handler shows: [st.success] with the number of videos, the
    [st.error] for an empty result, or the [st.error] of an exception. *)
Inductive ui_message :=
| ShowSuccess (number : nat)
| ShowNotFound
| ShowError (message : str).

(** Lines 449-476 of [main]: the handler of the search button.  It gives
    the new value of [st.session_state.videos] and what is shown. *)
Definition search_button (w : world) (search_term : str)
  : state -> (option (list video) * ui_message) * state :=
  fun st =>
    match main_search w search_term st with
    | (Return videos, st') =>
        match videos with
        | Some (v :: vs) => ((videos, ShowSuccess (length (v :: vs))), st')
        | _ => ((None, ShowNotFound), st')
        end
    | (Raise e, st') => ((None, ShowError (error_prefix ++ exn_msg e)), st')
    end.

(** Lines 413-431 of [main]: the handler of a quick button.  It gives the
    new value of [st.session_state.videos] and what is shown. *)
Definition quick_search (w : world) (channel_url fallback_name : str)
  : state -> (option (list video) * ui_message) * state :=
  fun st =>
    match (videos <~ _get_videos_from_url w channel_url 10 ;;
           match videos with
           | Some (_ :: _) => ret videos
           | _ => get_channel_videos w fallback_name 10
           end) st with
    | (Return videos, st') =>
        match videos with
        | Some (v :: vs) => ((videos, ShowSuccess (length (v :: vs))), st')
        | _ => ((None, ShowNotFound), st')
        end
    | (Raise e, st') => ((None, ShowError (error_prefix ++ exn_msg e)), st')
    end.

(** A sentence of the result: not empty and without surrounding
    whitespace. *)
Definition is_sentence (s : str) : Prop := s <> [] /\ strip s = s.

(** What [sentence_escaped] puts in place of one character. *)
Definition escape_char (c : N) : str :=
  if c =? 38 then lit "&amp;"
  else if c =? 60 then lit "&lt;"
  else if c =? 62 then lit "&gt;"
  else [c].

(** A state in which a file of the user exists. *)
Definition state_with_notes : state :=
  {| files := {[lit "notes.txt"]}; trace := [] |}.

Definition listing_url : str := lit "https://www.youtube.com/@TED/videos".

(** * Properties *)

(** ** Whitespace collapsing *)

Lemma spaced_cons b c l :
  spaced b (c :: l) =
  if isspace c then negb b && (c =? 32) && spaced true l
  else spaced false l.
Proof. done. Qed.

Lemma sub_ws_spaced b s : spaced b (sub_ws_from (lit " ") b s) = true.
Proof.
  revert b; induction s as [|c s IH]; intros b; simpl; [done|].
  destruct (isspace c) eqn:Hc.
  - destruct b; [apply IH|].
    change (lit " " ++ sub_ws_from (lit " ") true s)
      with (32 :: sub_ws_from (lit " ") true s).
    simpl. by rewrite IH.
  - simpl. rewrite Hc. apply IH.
Qed.

Lemma spaced_sub_ws b l :
  spaced b l = true -> sub_ws_from (lit " ") b l = l.
Proof.
  revert b; induction l as [|c l IH]; intros b H; simpl in *; [done|].
  destruct (isspace c) eqn:Hc.
  - destruct b; simpl in H; [done|].
    apply andb_prop in H as [Hc32 Hl].
    apply N.eqb_eq in Hc32; subst c.
    change (lit " " ++ sub_ws_from (lit " ") true l)
      with (32 :: sub_ws_from (lit " ") true l).
    by rewrite IH.
  - by rewrite IH.
Qed.

Lemma spaced_weaken b l : spaced true l = true -> spaced b l = true.
Proof.
  destruct b; [done|]. destruct l as [|c l]; simpl; [done|].
  destruct (isspace c); [done|done].
Qed.

Lemma spaced_tail b c l : spaced b (c :: l) = true -> spaced false l = true.
Proof.
  simpl. destruct (isspace c).
  - intros H. apply andb_prop in H as [_ H]. by apply spaced_weaken.
  - done.
Qed.

Lemma spaced_lstrip l :
  spaced false l = true -> spaced false (lstrip_by isspace l) = true.
Proof.
  induction l as [|c l IH]; simpl; [done|].
  destruct (isspace c) eqn:Hc.
  - intros H. apply IH. apply andb_prop in H as [_ H]. by apply spaced_weaken.
  - simpl. by rewrite Hc.
Qed.

Lemma spaced_rstrip p b l :
  spaced b l = true -> spaced b (rstrip_by p l) = true.
Proof.
  revert b; induction l as [|c l IH]; intros b H; simpl; [done|].
  destruct (rstrip_by p l) as [|r rs] eqn:Hr.
  - destruct (p c); [done|]. simpl in *.
    destruct (isspace c); [|done].
    apply andb_prop in H as [H _]. by rewrite H.
  - rewrite <- Hr. simpl in H |- *. destruct (isspace c).
    + apply andb_prop in H as [H1 H2]. rewrite H1, Hr.
      rewrite andb_true_l. by apply IH.
    + rewrite Hr. by apply IH.
Qed.

Lemma spaced_no_run b l : spaced b l = true -> has_space_run l = false.
Proof.
  revert b; induction l as [|c l IH]; intros b H; [done|].
  destruct l as [|c2 l]; [done|].
  change (has_space_run (c :: c2 :: l))
    with ((isspace c && isspace c2) || has_space_run (c2 :: l)).
  rewrite spaced_cons in H. destruct (isspace c) eqn:Hc.
  - apply andb_prop in H as [_ H]. rewrite (IH _ H).
    rewrite spaced_cons in H. destruct (isspace c2); [done|done].
  - rewrite (IH _ H). done.
Qed.

Lemma lstrip_no_leading p l :
  match lstrip_by p l with c :: _ => p c = false | [] => True end.
Proof.
  induction l as [|c l IH]; simpl; [done|].
  destruct (p c) eqn:Hc; [done|]. done.
Qed.

Lemma lstrip_fixed p l :
  match l with c :: _ => p c = false | [] => True end ->
  lstrip_by p l = l.
Proof. destruct l as [|c l]; simpl; [done|]. by intros ->. Qed.

Lemma rstrip_head p l :
  match rstrip_by p l with
  | c :: _ => exists l', l = c :: l'
  | [] => True
  end.
Proof.
  destruct l as [|c l]; simpl; [done|].
  destruct (rstrip_by p l); [destruct (p c)|]; eauto.
Qed.

Lemma rstrip_last p l : ends_with p (rstrip_by p l) = false.
Proof.
  unfold ends_with. induction l as [|c l IH]; simpl; [done|].
  destruct (rstrip_by p l) as [|r rs] eqn:Hr.
  - destruct (p c) eqn:Hc; simpl; [done|done].
  - rewrite last_cons. destruct (last (r :: rs)) eqn:Hl; [done|].
    by apply last_None in Hl.
Qed.

Lemma rstrip_fixed p l : ends_with p l = false -> rstrip_by p l = l.
Proof.
  unfold ends_with. induction l as [|c l IH]; simpl; [done|].
  rewrite last_cons. destruct (last l) as [x|] eqn:Hl.
  - intros H. rewrite (IH H). destruct l; [done|done].
  - apply last_None in Hl; subst l. simpl. by intros ->.
Qed.

Lemma rstrip_idem p l : rstrip_by p (rstrip_by p l) = rstrip_by p l.
Proof. apply rstrip_fixed, rstrip_last. Qed.

Lemma strip_no_leading l : starts_with_space (strip l) = false.
Proof.
  unfold strip, starts_with_space.
  pose proof (rstrip_head isspace (lstrip_by isspace l)) as H.
  destruct (rstrip_by isspace (lstrip_by isspace l)) as [|c r]; [done|].
  destruct H as [l' H].
  pose proof (lstrip_no_leading isspace l) as H'. by rewrite H in H'.
Qed.

Lemma strip_no_trailing l : ends_with isspace (strip l) = false.
Proof. apply rstrip_last. Qed.

Lemma strip_idem l : strip (strip l) = strip l.
Proof.
  unfold strip at 1. rewrite lstrip_fixed.
  - apply rstrip_idem.
  - pose proof (strip_no_leading l) as H. unfold starts_with_space in H.
    by destruct (strip l).
Qed.

Lemma clean_text_spaced text : spaced false (clean_text text) = true.
Proof.
  unfold clean_text, strip, re_sub_ws.
  apply spaced_rstrip, spaced_lstrip, sub_ws_spaced.
Qed.

Lemma clean_text_idem text : clean_text (clean_text text) = clean_text text.
Proof.
  unfold clean_text at 1, re_sub_ws.
  rewrite spaced_sub_ws by apply clean_text_spaced.
  apply strip_idem.
Qed.

Lemma clean_text_normalized text :
  starts_with_space (clean_text text) = false
  /\ ends_with isspace (clean_text text) = false
  /\ has_space_run (clean_text text) = false
  /\ clean_text (clean_text text) = clean_text text.
Proof.
  split; [apply strip_no_leading|].
  split; [apply strip_no_trailing|].
  split; [apply (spaced_no_run false), clean_text_spaced|].
  apply clean_text_idem.
Qed.

(** ** File-safe titles *)

Lemma Forall_lstrip (P : N -> Prop) p l :
  Forall P l -> Forall P (lstrip_by p l).
Proof.
  induction 1 as [|c l Hc Hl IH]; simpl; [constructor|].
  destruct (p c); [done|by constructor].
Qed.

Lemma Forall_rstrip (P : N -> Prop) p l :
  Forall P l -> Forall P (rstrip_by p l).
Proof.
  induction 1 as [|c l Hc Hl IH]; simpl; [constructor|].
  destruct (rstrip_by p l) as [|r rs].
  - destruct (p c); [constructor|by repeat constructor].
  - by constructor.
Qed.

Lemma Forall_sub_ws (P : N -> Prop) repl b l :
  Forall P repl -> Forall P l -> Forall P (sub_ws_from repl b l).
Proof.
  intros Hrepl Hl. revert b.
  induction Hl as [|c l Hc Hl IH]; intros b; simpl; [constructor|].
  destruct (isspace c); [destruct b|].
  - apply IH.
  - apply Forall_app; split; [done|apply IH].
  - constructor; [done|apply IH].
Qed.

Lemma Forall_strip (P : N -> Prop) l : Forall P l -> Forall P (strip l).
Proof. intros H. by apply Forall_rstrip, Forall_lstrip. Qed.

Lemma Forall_re_sub_class (P : N -> Prop) cls repl l :
  Forall P repl -> (forall c, cls c = false -> P c) ->
  Forall P (re_sub_class cls repl l).
Proof.
  intros Hrepl Hcls. unfold re_sub_class.
  induction l as [|c l IH]; simpl; [constructor|].
  apply Forall_app; split; [|done].
  destruct (cls c) eqn:Hc; [done|]. constructor; [by apply Hcls|constructor].
Qed.

Lemma Forall_list_filter (P : N -> Prop) (Q : N -> Prop) f l :
  Forall P l -> (forall c, f c = true -> Q c) ->
  Forall (fun c => P c /\ Q c) (List.filter f l).
Proof.
  intros Hl Hf. induction Hl as [|c l Hc Hl IH]; simpl; [constructor|].
  destruct (f c) eqn:Hfc; [|done]. constructor; [|done]. split; [done|by apply Hf].
Qed.

Lemma rstrip_length p l : (length (rstrip_by p l) <= length l)%nat.
Proof.
  induction l as [|c l IH]; simpl; [done|].
  destruct (rstrip_by p l); [destruct (p c)|]; simpl in *; lia.
Qed.

Lemma str_or_nonempty x d : d <> [] -> str_or x d <> [].
Proof. by destruct x. Qed.

Lemma str_or_cases (P : str -> Prop) x d : P x -> P d -> P (str_or x d).
Proof. by destruct x. Qed.

Lemma filesafe_base_safe nfkd is_mn title :
  Forall safe_char
    (rstrip_chars (lit "_")
       (strip (re_sub_ws (lit "_")
          (List.filter (fun ch => 32 <=? ch)
             (re_sub_class forbidden (lit " ")
                (str_or (_normalize_visible_text nfkd is_mn title)
                        (lit "script"))))))).
Proof.
  apply Forall_rstrip, Forall_strip, Forall_sub_ws.
  - constructor; [|constructor]. split; [reflexivity|by vm_compute].
  - apply Forall_list_filter.
    + apply Forall_re_sub_class; [by repeat constructor|done].
    + intros c Hc. by apply N.leb_le.
Qed.

(** X6: The result of [make_filesafe_title] never ends with an underscore. *)
Lemma make_filesafe_title_no_trailing_underscore nfkd is_mn title :
  ends_with (in_chars (lit "_")) (make_filesafe_title nfkd is_mn title) = false.
Proof.
  unfold make_filesafe_title.
  apply (str_or_cases (fun s => ends_with (in_chars (lit "_")) s = false));
    [|done].
  destruct (_ <? _)%nat; apply rstrip_last.
Qed.

Lemma forbidden_unsafe c : forbidden c = false -> c ∉ unsafe_chars.
Proof.
  intros H Hin. unfold forbidden, in_chars in H.
  apply not_true_iff_false in H. apply H.
  apply existsb_exists. exists c. split; [|apply N.eqb_refl].
  vm_compute in Hin. apply list_elem_of_In in Hin. simpl in Hin. simpl.
  tauto.
Qed.

(** C7: for every title, the empty one included, [make_filesafe_title]
    returns a non-empty string of at most 150 characters, none of which is
    one of the unsafe characters or a control character (code point below
    0x20); the empty title gives the literal script. *)
Theorem make_filesafe_title_safe nfkd is_mn title :
  make_filesafe_title nfkd is_mn title <> []
  /\ (length (make_filesafe_title nfkd is_mn title) <= 150)%nat
  /\ Forall (fun c => (c ∉ unsafe_chars) /\ ~ (c < 32))
       (make_filesafe_title nfkd is_mn title)
  /\ make_filesafe_title nfkd is_mn [] = lit "script".
Proof.
  split; [by apply str_or_nonempty|].
  split; [|split; [|done]].
  - unfold make_filesafe_title. apply str_or_cases; [|simpl; lia].
    destruct (_ <? _)%nat eqn:Hlen.
    + etrans; [apply rstrip_length|]. rewrite length_take. lia.
    + apply Nat.ltb_ge in Hlen. done.
  - eapply Forall_impl with (P := safe_char).
    2:{ intros c [Hf Hc]. split; [by apply forbidden_unsafe|lia]. }
    unfold make_filesafe_title.
    apply (str_or_cases (Forall safe_char)); [|by repeat constructor].
    pose proof (filesafe_base_safe nfkd is_mn title) as Hbase.
    destruct (_ <? _)%nat; [|done].
    apply Forall_rstrip, Forall_take, Hbase.
Qed.

(** ** Splitting and the video id *)

Lemma split_from_nonempty n sep cur s : split_from n sep cur s <> [].
Proof.
  revert cur s; induction n as [|n IH]; intros cur s; simpl; [done|].
  destruct s as [|c s]; [done|]. destruct (startswith sep (c :: s)); [done|].
  apply IH.
Qed.

Lemma str_split_nonempty sep s : str_split sep s <> [].
Proof. apply split_from_nonempty. Qed.

Lemma occurs_cons sep c s :
  occurs sep (c :: s) = startswith sep (c :: s) || occurs sep s.
Proof. done. Qed.

(** Without an occurrence of the separator there is one piece. *)
Lemma split_from_no_occurrence n sep cur s :
  occurs sep s = false -> split_from n sep cur s = [rev cur ++ s].
Proof.
  revert cur s; induction n as [|n IH]; intros cur s Hocc; simpl; [done|].
  destruct s as [|c s]; [by rewrite app_nil_r|].
  rewrite occurs_cons in Hocc. apply orb_false_elim in Hocc as [Hsw Hocc].
  rewrite Hsw, IH by done. simpl. by rewrite <- app_assoc.
Qed.

Lemma last_cons_nonempty (x : str) (l : list str) :
  l <> [] -> List.last (x :: l) [] = List.last l [].
Proof. by destruct l. Qed.

(** The last piece of a split on a two-character separator [a b] with
    [a <> b] is what follows the last occurrence. *)
Lemma split_from_last n a b cur pre post :
  a <> b ->
  occurs [a; b] post = false ->
  (length (pre ++ a :: b :: post) < n)%nat ->
  List.last (split_from n [a; b] cur (pre ++ a :: b :: post)) [] = post.
Proof.
  intros Hab Hpost. revert cur pre.
  induction n as [|n IH]; intros cur pre Hlen; [lia|].
  destruct pre as [|c pre].
  - simpl. rewrite !N.eqb_refl. simpl.
    by rewrite split_from_no_occurrence.
  - cbn [split_from app].
    destruct (startswith [a; b] (c :: pre ++ a :: b :: post)) eqn:Hsw.
    + rewrite last_cons_nonempty by apply split_from_nonempty.
      simpl in Hsw. apply andb_prop in Hsw as [Hc Hsw].
      destruct pre as [|c' pre].
      * simpl in Hsw. apply andb_prop in Hsw as [Hsw _].
        apply N.eqb_eq in Hsw. by symmetry in Hsw.
      * simpl. apply IH. simpl in Hlen. lia.
    + apply IH. simpl in Hlen. lia.
Qed.

(** The first piece of a split on a one-character separator. *)
Lemma split_from_first n c cur s :
  (length s < n)%nat ->
  List.hd [] (split_from n [c] cur s) = rev cur ++ up_to c s.
Proof.
  revert cur s; induction n as [|n IH]; intros cur s Hlen; [lia|].
  destruct s as [|x s]; [simpl; by rewrite app_nil_r|].
  cbn [split_from startswith up_to].
  rewrite andb_true_r, (N.eqb_sym c x).
  destruct (x =? c); [simpl; by rewrite app_nil_r|].
  rewrite IH by (simpl in Hlen; lia). simpl. by rewrite <- app_assoc.
Qed.

Lemma up_to_absent c s : occurs [c] s = false -> up_to c s = s.
Proof.
  induction s as [|x s IH]; [done|].
  rewrite occurs_cons. intros H. apply orb_false_elim in H as [Hx Hs].
  simpl in Hx |- *. rewrite andb_true_r, N.eqb_sym in Hx.
  by rewrite Hx, IH.
Qed.

Lemma video_id_after_last pre post :
  occurs (lit "v=") post = false ->
  video_id_of (pre ++ lit "v=" ++ post) = up_to 38 post.
Proof.
  intros Hpost. unfold video_id_of, last_piece, first_piece, str_split.
  change (lit "v=") with [118; 61] in *. change (lit "&") with [38].
  change ([118; 61] ++ post) with (118 :: 61 :: post).
  rewrite split_from_last by (done || lia).
  by rewrite split_from_first by lia.
Qed.

Lemma video_id_no_marker s :
  occurs (lit "v=") s = false -> video_id_of s = up_to 38 s.
Proof.
  intros Hs. unfold video_id_of, last_piece, first_piece, str_split.
  rewrite (split_from_no_occurrence _ (lit "v=")) by done.
  change (lit "&") with [38]. simpl List.last.
  by rewrite split_from_first by lia.
Qed.

(** C10, as the code has it: the video id is what follows the last
    occurrence of the marker v= up to the next ampersand; an input without
    the marker is also cut at its first ampersand, and is used whole only
    when it holds no ampersand either. *)
Theorem video_id_of_spec video_url :
  (forall pre post,
      video_url = pre ++ lit "v=" ++ post ->
      occurs (lit "v=") post = false ->
      video_id_of video_url = up_to 38 post)
  /\ (occurs (lit "v=") video_url = false ->
      video_id_of video_url = up_to 38 video_url)
  /\ (occurs (lit "v=") video_url = false ->
      occurs (lit "&") video_url = false ->
      video_id_of video_url = video_url).
Proof.
  split; [|split].
  - intros pre post -> Hpost. by apply video_id_after_last.
  - apply video_id_no_marker.
  - intros Hv Hamp. rewrite video_id_no_marker by done.
    by apply up_to_absent.
Qed.

Lemma video_id_of_spec_witness :
  video_id_of (lit "https://www.youtube.com/watch?v=abc123&t=10")
    = up_to 38 (lit "abc123&t=10")
  /\ video_id_of (lit "https://youtu.be/abc123?si=x&t=10")
    = up_to 38 (lit "https://youtu.be/abc123?si=x&t=10")
  /\ video_id_of (lit "abc123") = lit "abc123".
Proof.
  split; [|split].
  - apply (proj1 (video_id_of_spec
                    (lit "https://www.youtube.com/watch?v=abc123&t=10"))
             (lit "https://www.youtube.com/watch?") (lit "abc123&t=10"));
      reflexivity.
  - apply (proj1 (proj2 (video_id_of_spec
                           (lit "https://youtu.be/abc123?si=x&t=10"))));
      reflexivity.
  - apply (proj2 (proj2 (video_id_of_spec (lit "abc123")))); reflexivity.
Defined.

(** C10 as stated fails: an input without the marker v= that holds an
    ampersand is not used whole as the id. *)
Lemma video_id_of_not_whole_input :
  occurs (lit "v=") (lit "https://youtu.be/abc123?si=x&t=10") = false
  /\ video_id_of (lit "https://youtu.be/abc123?si=x&t=10")
     = lit "https://youtu.be/abc123?si=x"
  /\ video_id_of (lit "https://youtu.be/abc123?si=x&t=10")
     <> lit "https://youtu.be/abc123?si=x&t=10".
Proof. split; [|split]; [reflexivity|reflexivity|]. by vm_compute. Qed.

(** ** Transcript acquirer *)

Lemma audio_file_present (f : str) (fs : gset str) :
  bool_decide (f ∈ {[f]} ∪ fs) = true.
Proof. apply bool_decide_eq_true_2. set_solver. Qed.

(** The runs of [get_youtube_script], by the answers of the collaborators. *)
Lemma get_youtube_script_run w video_url lang title st :
  get_youtube_script w video_url lang title st =
  let fetch := CallFetchTranscript (video_id_of video_url)
                 [lang; lit "en"; lit "ko"] in
  let download := CallDownload video_url audio_file_name in
  let load := CallLoadModel (lit "small") in
  let transcribe := CallTranscribe audio_file_name in
  match caption_outcome w video_url lang with
  | Return segments =>
      (Return (Some (clean_text (str_join (lit " ") segments))),
       logged st [fetch] (files st))
  | Raise e =>
      if no_captions e then
        match ydl_download w video_url audio_file_name with
        | Raise _ => (Return None, logged st [fetch; download] (files st))
        | Return _ =>
            match whisper_load_model w (lit "small") with
            | Raise _ =>
                (Return None,
                 logged st [fetch; download; load]
                   ({[audio_file_name]} ∪ files st))
            | Return _ =>
                match model_transcribe w audio_file_name with
                | Raise _ =>
                    (Return None,
                     logged st [fetch; download; load; transcribe]
                       ({[audio_file_name]} ∪ files st))
                | Return text =>
                    (Return (Some (clean_text text)),
                     logged st
                       [fetch; download; load; transcribe;
                        CallRemove audio_file_name]
                       (({[audio_file_name]} ∪ files st) ∖ {[audio_file_name]}))
                end
            end
        end
      else (Return None, logged st [fetch] (files st))
  end.
Proof.
  run_script.
  destruct (transcript_fetch w _ _) as [segments|e]; [done|].
  destruct (no_captions e); [|done].
  destruct (ydl_download w _ _) as [[]|e1]; [|by rewrite <- app_assoc].
  destruct (whisper_load_model w _) as [[]|e2]; [|by rewrite <- !app_assoc].
  destruct (model_transcribe w _) as [text|e3]; [|by rewrite <- !app_assoc].
  rewrite !audio_file_present. run_script.
  by rewrite <- !app_assoc.
Qed.

(** C3: a call of [get_youtube_script] always returns (it never raises);
    caption retrieval is called exactly once, first, and never again.
    When it answers, its cleaned text is returned and nothing else is
    called.  The speech-to-text fallback runs exactly when caption
    retrieval raised [TranscriptsDisabled] or [NoTranscriptFound], and at
    most once: the download is then made, the model is loaded exactly
    when the download succeeded, the transcription is made exactly when
    the model was loaded, and its cleaned text is returned.  Any other
    failure of caption retrieval, and any failure inside the fallback,
    gives the result [None]. *)
Theorem get_youtube_script_fallback_policy w video_url lang title st :
  exists r fs evs,
    get_youtube_script w video_url lang title st = (Return r, logged st evs fs)
    /\ count is_fetch_call evs = 1%nat
    /\ (count is_download_call evs <= 1)%nat
    /\ (count is_transcribe_call evs <= 1)%nat
    /\ (count is_download_call evs = 1%nat <->
        exists e, caption_outcome w video_url lang = Raise e
                  /\ no_captions e = true)
    /\ (forall e, caption_outcome w video_url lang = Raise e ->
                  no_captions e = false -> r = None)
    /\ (forall e0 e, caption_outcome w video_url lang = Raise e0 ->
                     ydl_download w video_url audio_file_name = Raise e
                     \/ whisper_load_model w (lit "small") = Raise e
                     \/ model_transcribe w audio_file_name = Raise e ->
                     r = None)
    /\ head evs = Some (CallFetchTranscript (video_id_of video_url)
                          [lang; lit "en"; lit "ko"])
    /\ (forall segments,
          caption_outcome w video_url lang = Return segments ->
          r = Some (clean_text (str_join (lit " ") segments))
          /\ evs = [CallFetchTranscript (video_id_of video_url)
                      [lang; lit "en"; lit "ko"]])
    /\ (forall e, caption_outcome w video_url lang = Raise e ->
                  no_captions e = false ->
                  evs = [CallFetchTranscript (video_id_of video_url)
                           [lang; lit "en"; lit "ko"]])
    /\ (count is_load_call evs <= 1)%nat
    /\ (count is_load_call evs = 1%nat <->
        (exists e, caption_outcome w video_url lang = Raise e
                   /\ no_captions e = true)
        /\ ydl_download w video_url audio_file_name = Return tt)
    /\ (count is_transcribe_call evs = 1%nat <->
        (exists e, caption_outcome w video_url lang = Raise e
                   /\ no_captions e = true)
        /\ ydl_download w video_url audio_file_name = Return tt
        /\ whisper_load_model w (lit "small") = Return tt)
    /\ (forall e raw,
          caption_outcome w video_url lang = Raise e ->
          no_captions e = true ->
          ydl_download w video_url audio_file_name = Return tt ->
          whisper_load_model w (lit "small") = Return tt ->
          model_transcribe w audio_file_name = Return raw ->
          r = Some (clean_text raw)).
Proof.
  rewrite get_youtube_script_run. cbv zeta.
  destruct (caption_outcome w video_url lang) as [segments|e0];
    [|destruct (no_captions e0) eqn:He0;
      [destruct (ydl_download w video_url audio_file_name) as [[]|e1];
       [destruct (whisper_load_model w (lit "small")) as [[]|e2];
        [destruct (model_transcribe w audio_file_name) as [text|e3]|]|]|]];
    (eexists _, _, _; split; [reflexivity|]);
    unfold count;
    cbn [List.filter is_fetch_call is_download_call is_transcribe_call
         is_load_call length head];
    split_cases.
Qed.

(** C5: a string returned by [get_youtube_script] is normalised: it has no
    leading or trailing whitespace, no two adjacent whitespace characters,
    and [clean_text] leaves it unchanged; this holds on the caption path
    and on the speech-to-text path. *)
Theorem get_youtube_script_normalized w video_url lang title st text st' :
  get_youtube_script w video_url lang title st = (Return (Some text), st') ->
  starts_with_space text = false
  /\ ends_with isspace text = false
  /\ has_space_run text = false
  /\ clean_text text = text.
Proof.
  rewrite get_youtube_script_run. cbv zeta. intros H.
  assert (exists raw, text = clean_text raw) as [raw ->].
  { destruct (caption_outcome w video_url lang) as [segments|e0].
    { inversion H. eauto. }
    destruct (no_captions e0); [|done].
    destruct (ydl_download w video_url audio_file_name) as [[]|e1]; [|done].
    destruct (whisper_load_model w (lit "small")) as [[]|e2]; [|done].
    destruct (model_transcribe w audio_file_name) as [raw|e3]; [|done].
    inversion H. eauto. }
  apply clean_text_normalized.
Qed.

(** X10: On the success path of the fallback the audio file is removed. *)
Lemma get_youtube_script_removes_audio w video_url lang title st e text :
  caption_outcome w video_url lang = Raise e ->
  no_captions e = true ->
  ydl_download w video_url audio_file_name = Return tt ->
  whisper_load_model w (lit "small") = Return tt ->
  model_transcribe w audio_file_name = Return text ->
  exists st',
    get_youtube_script w video_url lang title st
      = (Return (Some (clean_text text)), st')
    /\ audio_file_name ∉ files st'.
Proof.
  intros Hc He Hd Hl Ht.
  rewrite get_youtube_script_run. cbv zeta. rewrite Hc, He, Hd, Hl, Ht.
  eexists. split; [reflexivity|]. unfold logged; cbn [files].
  intros [_ Hn]%elem_of_difference. apply Hn. by apply elem_of_singleton.
Qed.

(** C1 fails on the code: when the fallback runs, the download succeeds
    and the model load or the transcription raises, the call returns
    [None] and the audio file is still there. *)
Theorem get_youtube_script_leaves_audio w video_url lang title st e e' :
  caption_outcome w video_url lang = Raise e ->
  no_captions e = true ->
  ydl_download w video_url audio_file_name = Return tt ->
  whisper_load_model w (lit "small") = Raise e'
  \/ (whisper_load_model w (lit "small") = Return tt
      /\ model_transcribe w audio_file_name = Raise e') ->
  exists st',
    get_youtube_script w video_url lang title st = (Return None, st')
    /\ audio_file_name ∈ files st'.
Proof.
  intros Hc He Hd Hfail.
  rewrite get_youtube_script_run. cbv zeta. rewrite Hc, He, Hd.
  destruct Hfail as [Hl|[Hl Ht]].
  - rewrite Hl. eexists. split; [reflexivity|]. unfold logged; cbn [files]. set_solver.
  - rewrite Hl, Ht. eexists. split; [reflexivity|]. unfold logged; cbn [files]. set_solver.
Qed.

(** ** Channel resolver *)

(** The listing fetch makes one call, [extract_info] on the URL it is
    given, and touches no file. *)
Lemma _get_videos_from_url_run w channel_url max_results st :
  _get_videos_from_url w channel_url max_results st =
  (listing_result max_results (ydl_extract_info w channel_url),
   logged st [CallExtractInfo channel_url] (files st)).
Proof.
  run_resolver. unfold listing_result.
  destruct (ydl_extract_info w channel_url) as [[[[es|]]|]|e]; try done.
  by destruct (videos_from 1 (slice_to max_results es)).
Qed.

Lemma videos_from_lookup i es v :
  v ∈ videos_from i es ->
  exists entry,
    es !! (v_index v - i)%nat = Some entry
    /\ (i <= v_index v)%nat
    /\ truthy (e_id entry) = true
    /\ e_id entry = Some (v_id v).
Proof.
  revert i; induction es as [|entry es IH]; intros i Hv; simpl in Hv.
  { by apply elem_of_nil in Hv. }
  assert (v ∈ videos_from (S i) es ->
          exists entry',
            (entry :: es) !! (v_index v - i)%nat = Some entry'
            /\ (i <= v_index v)%nat
            /\ truthy (e_id entry') = true
            /\ e_id entry' = Some (v_id v)) as Hrest.
  { intros Hin. destruct (IH _ Hin) as (entry' & Hl & Hi & Ht & Hid).
    exists entry'. repeat split; [|lia|done|done].
    replace (v_index v - i)%nat with (S (v_index v - S i)) by lia. done. }
  destruct (truthy (e_id entry)) eqn:Hid; simpl in Hv; [|by apply Hrest].
  apply elem_of_cons in Hv as [->|Hv]; [|by apply Hrest].
  exists entry. simpl. rewrite Nat.sub_diag.
  repeat split; [done|done|].
  destruct (e_id entry) as [[|c cs]|]; done.
Qed.

Lemma videos_from_all_lack_id i es :
  Forall lacks_id es -> videos_from i es = [].
Proof.
  intros H. revert i. induction H as [|entry es Hid _ IH]; intros i; [done|].
  simpl. unfold lacks_id in Hid. rewrite Hid. apply IH.
Qed.

Lemma Forall_slice_to {A} (P : A -> Prop) n l :
  Forall P l -> Forall P (slice_to n l).
Proof. unfold slice_to. destruct (0 <=? n)%Z; apply Forall_take. Qed.

(** C4, as the code has it: the listing fetch returns [None] when the
    provider yields nothing or no entries, and also when entries exist but
    every one of them lacks a video id; it never returns an empty list. *)
Theorem _get_videos_from_url_none w channel_url max_results st :
  (ydl_extract_info w channel_url = Return None
   \/ ydl_extract_info w channel_url = Return (Some {| entries := None |})
   \/ ydl_extract_info w channel_url = Return (Some {| entries := Some [] |}) ->
   (_get_videos_from_url w channel_url max_results st).1 = Return None)
  /\ (forall es,
         ydl_extract_info w channel_url
           = Return (Some {| entries := Some es |}) ->
         Forall lacks_id es ->
         (_get_videos_from_url w channel_url max_results st).1 = Return None)
  /\ (_get_videos_from_url w channel_url max_results st).1 <> Return (Some []).
Proof.
  rewrite _get_videos_from_url_run. cbn [fst]. unfold listing_result.
  split; [|split].
  - intros [->|[->| ->]]; try done.
    unfold slice_to. destruct (0 <=? max_results)%Z; by rewrite take_nil.
  - intros es -> Hes.
    by rewrite videos_from_all_lack_id by by apply Forall_slice_to.
  - destruct (ydl_extract_info w channel_url) as [[[[es|]]|]|e]; try done.
    by destruct (videos_from 1 (slice_to max_results es)).
Qed.

(** C6: the rank of every returned video is the 1-based position, in the
    provider's enumeration cut at [max_results], of the entry it was built
    from, so an entry skipped for lack of an id still uses up its rank:
    with five entries of which the second lacks an id, the ranks are
    1, 3, 4, 5. *)
Theorem _get_videos_from_url_ranks w channel_url max_results st :
  (forall vs st',
      _get_videos_from_url w channel_url max_results st
        = (Return (Some vs), st') ->
      exists es,
        ydl_extract_info w channel_url = Return (Some {| entries := Some es |})
        /\ forall v, v ∈ vs ->
             exists entry,
               slice_to max_results es !! (v_index v - 1)%nat = Some entry
               /\ (1 <= v_index v)%nat
               /\ e_id entry = Some (v_id v))
  /\ (forall e1 e2 e3 e4 e5,
         ydl_extract_info w channel_url
           = Return (Some {| entries := Some [e1; e2; e3; e4; e5] |}) ->
         (5 <= max_results)%Z ->
         truthy (e_id e1) = true -> lacks_id e2 -> truthy (e_id e3) = true ->
         truthy (e_id e4) = true -> truthy (e_id e5) = true ->
         exists vs st',
           _get_videos_from_url w channel_url max_results st
             = (Return (Some vs), st')
           /\ List.map v_index vs = [1; 3; 4; 5]%nat).
Proof.
  rewrite _get_videos_from_url_run. unfold listing_result. split.
  - intros vs st' H.
    destruct (ydl_extract_info w channel_url) as [[[[es|]]|]|e]; try done.
    exists es. split; [done|]. intros v Hv.
    destruct (videos_from 1 (slice_to max_results es)) as [|v0 vs0] eqn:Hvs;
      [done|].
    injection H as <- _. rewrite <- Hvs in Hv.
    apply videos_from_lookup in Hv as (entry & Hl & Hi & _ & Hid). eauto.
  - intros e1 e2 e3 e4 e5 -> Hmax H1 H2 H3 H4 H5.
    unfold slice_to. replace (0 <=? max_results)%Z with true by lia.
    rewrite take_ge by (simpl; lia). unfold lacks_id in H2.
    simpl. rewrite H1, H2, H3, H4, H5. simpl. eauto.
Qed.

Lemma http_not_search s :
  startswith (lit "http") s = true -> startswith (lit "ytsearch1:") s = false.
Proof.
  destruct s as [|c s]; [done|].
  change (lit "http") with (104 :: lit "ttp").
  change (lit "ytsearch1:") with (121 :: lit "tsearch1:").
  cbn [startswith]. intros [Hc _]%andb_prop.
  apply N.eqb_eq in Hc. by subst c.
Qed.

(** C9: for a search term that starts with http the search button calls
    the listing fetch on that very term; the only call made is
    [extract_info] on the term, and no platform search is made. *)
Theorem main_search_url_skips_search w search_term st :
  startswith (lit "http") search_term = true ->
  main_search w search_term st = _get_videos_from_url w search_term 10 st
  /\ exists r evs,
       main_search w search_term st = (r, logged st evs (files st))
       /\ evs = [CallExtractInfo search_term]
       /\ count is_search_call evs = 0%nat.
Proof.
  intros Hhttp. unfold main_search. rewrite Hhttp. split; [done|].
  rewrite _get_videos_from_url_run. eexists _, _.
  split; [reflexivity|]. split; [done|].
  unfold count. cbn [List.filter is_search_call].
  by rewrite http_not_search.
Qed.

(** C2 fails on the code: when the search gives a channel URL and the
    listing fetch for it returns [None] without raising,
    [get_channel_videos] returns that [None] at once: none of the four
    direct URLs is tried and the caller does not get an empty list. *)
Theorem get_channel_videos_returns_none
    w channel_name max_results st first_result others channel_url :
  ydl_extract_info w (lit "ytsearch1:" ++ channel_name)
    = Return (Some {| entries := Some (first_result :: others) |}) ->
  search_channel_url first_result = Some channel_url ->
  listing_result max_results (ydl_extract_info w channel_url) = Return None ->
  get_channel_videos w channel_name max_results st
  = (Return None,
     logged st [CallExtractInfo (lit "ytsearch1:" ++ channel_name);
                CallExtractInfo channel_url] (files st)).
Proof.
  intros Hsearch Hurl Hlisting. run_chain.
  rewrite Hsearch, Hurl. run_chain.
  rewrite _get_videos_from_url_run, Hlisting. run_chain.
  by rewrite <- app_assoc.
Qed.

Lemma try_urls_all_fail w urls max_results st :
  Forall (listing_fails w max_results) urls ->
  try_urls w urls max_results st
  = (Return None, logged st (List.map CallExtractInfo urls) (files st)).
Proof.
  intros H. revert st. induction H as [|url urls Hurl _ IH]; intros st.
  { unfold logged. simpl. rewrite app_nil_r. by destruct st. }
  cbn [try_urls]. run_chain. rewrite _get_videos_from_url_run.
  unfold listing_fails in Hurl.
  destruct (listing_result max_results (ydl_extract_info w url))
    as [[[|v vs]|]|e] eqn:Hres.
  - by destruct (Hurl []).
  - by destruct (Hurl (v :: vs)).
  - run_chain. rewrite IH. unfold logged. cbn [files trace List.map].
    by rewrite <- app_assoc.
  - run_chain. rewrite IH. unfold logged. cbn [files trace List.map].
    by rewrite <- app_assoc.
Qed.

(** X17: When the search raises and every direct URL fails, the four URLs are
    tried in order and the caller gets an empty list. *)
Lemma get_channel_videos_exhausted w channel_name max_results st e :
  ydl_extract_info w (lit "ytsearch1:" ++ channel_name) = Raise e ->
  Forall (listing_fails w max_results) (possible_urls channel_name) ->
  get_channel_videos w channel_name max_results st
  = (Return (Some []),
     logged st (CallExtractInfo (lit "ytsearch1:" ++ channel_name)
                :: List.map CallExtractInfo (possible_urls channel_name))
       (files st)).
Proof.
  intros Hsearch Hall. run_chain. rewrite Hsearch. run_chain.
  rewrite try_urls_all_fail by done. run_chain.
  by rewrite <- app_assoc.
Qed.

(** X18: When the listing fetch of the search strategy raises, the direct URLs
    are tried. *)
Lemma get_channel_videos_listing_raises
    w channel_name max_results st first_result others channel_url e :
  ydl_extract_info w (lit "ytsearch1:" ++ channel_name)
    = Return (Some {| entries := Some (first_result :: others) |}) ->
  search_channel_url first_result = Some channel_url ->
  ydl_extract_info w channel_url = Raise e ->
  Forall (listing_fails w max_results) (possible_urls channel_name) ->
  get_channel_videos w channel_name max_results st
  = (Return (Some []),
     logged st (CallExtractInfo (lit "ytsearch1:" ++ channel_name)
                :: CallExtractInfo channel_url
                :: List.map CallExtractInfo (possible_urls channel_name))
       (files st)).
Proof.
  intros Hsearch Hurl Hlisting Hall. run_chain.
  rewrite Hsearch, Hurl. run_chain.
  rewrite _get_videos_from_url_run, Hlisting. cbn [listing_result]. run_chain.
  rewrite try_urls_all_fail by done. run_chain.
  by rewrite <- !app_assoc.
Qed.

(** C8 fails on the code: a trailing dot is not trimmed; the title a.
    comes back unchanged. *)
Theorem make_filesafe_title_keeps_trailing_dot nfkd is_mn :
  nfkd (lit "a.") = lit "a." ->
  is_mn 97 = false ->
  is_mn 46 = false ->
  make_filesafe_title nfkd is_mn (lit "a.") = lit "a."
  /\ ends_with (N.eqb 46) (make_filesafe_title nfkd is_mn (lit "a.")) = true.
Proof.
  intros Hnfkd Ha Hdot.
  assert (make_filesafe_title nfkd is_mn (lit "a.") = lit "a.") as ->; [|done].
  unfold make_filesafe_title, _normalize_visible_text.
  change (lit "a.") with [97; 46] in *. rewrite Hnfkd.
  cbn [List.filter]. rewrite Ha, Hdot. reflexivity.
Qed.

(** ** Runs on concrete collaborators *)

Lemma get_youtube_script_normalized_witness :
  starts_with_space (lit "Hello world") = false
  /\ ends_with isspace (lit "Hello world") = false
  /\ has_space_run (lit "Hello world") = false
  /\ clean_text (lit "Hello world") = lit "Hello world".
Proof.
  apply (get_youtube_script_normalized world_captions watch_url (lit "en")
           (lit "content") initial_state (lit "Hello world")
           (logged initial_state
              [CallFetchTranscript (lit "abc123")
                 [lit "en"; lit "en"; lit "ko"]] ∅)).
  reflexivity.
Defined.

Lemma get_youtube_script_leaves_audio_witness :
  exists st',
    get_youtube_script world_transcription_fails watch_url (lit "en")
      (lit "content") initial_state = (Return None, st')
    /\ audio_file_name ∈ files st'.
Proof.
  apply (get_youtube_script_leaves_audio world_transcription_fails watch_url
           (lit "en") (lit "content") initial_state captions_disabled
           (error "transcription failed"));
    [reflexivity|reflexivity|reflexivity|].
  right. split; reflexivity.
Defined.

Lemma _get_videos_from_url_none_witness :
  (_get_videos_from_url (world_listing [entry_without_id; entry_without_id])
     (lit "https://www.youtube.com/@TED/videos") 10 initial_state).1
  = Return None.
Proof.
  apply (proj1 (proj2 (_get_videos_from_url_none
                         (world_listing [entry_without_id; entry_without_id])
                         (lit "https://www.youtube.com/@TED/videos") 10
                         initial_state))
           [entry_without_id; entry_without_id]);
    [reflexivity|].
  repeat constructor.
Defined.

(** C4 as stated fails: when the only entry lacks an id the listing fetch
    returns [None], not an empty list. *)
Lemma _get_videos_from_url_not_empty_list :
  ydl_extract_info (world_listing [entry_without_id])
    (lit "https://www.youtube.com/@TED/videos")
  = Return (Some {| entries := Some [entry_without_id] |})
  /\ e_id entry_without_id = None
  /\ (_get_videos_from_url (world_listing [entry_without_id])
        (lit "https://www.youtube.com/@TED/videos") 10 initial_state).1
     = Return None
  /\ (_get_videos_from_url (world_listing [entry_without_id])
        (lit "https://www.youtube.com/@TED/videos") 10 initial_state).1
     <> Return (Some []).
Proof. repeat split; try reflexivity. discriminate. Qed.

Lemma _get_videos_from_url_ranks_witness :
  exists vs st',
    _get_videos_from_url (world_listing five_entries)
      (lit "https://www.youtube.com/@TED/videos") 10 initial_state
    = (Return (Some vs), st')
    /\ List.map v_index vs = [1; 3; 4; 5]%nat.
Proof.
  apply (proj2 (_get_videos_from_url_ranks (world_listing five_entries)
                  (lit "https://www.youtube.com/@TED/videos") 10
                  initial_state)
           (entry_with_id "v1") entry_without_id (entry_with_id "v3")
           (entry_with_id "v4") (entry_with_id "v5"));
    solve [reflexivity | lia].
Defined.

Lemma main_search_url_skips_search_witness :
  main_search (world_listing five_entries)
    (lit "https://www.youtube.com/@TED/videos") initial_state
  = _get_videos_from_url (world_listing five_entries)
      (lit "https://www.youtube.com/@TED/videos") 10 initial_state
  /\ exists r evs,
       main_search (world_listing five_entries)
         (lit "https://www.youtube.com/@TED/videos") initial_state
       = (r, logged initial_state evs (files initial_state))
       /\ evs = [CallExtractInfo (lit "https://www.youtube.com/@TED/videos")]
       /\ count is_search_call evs = 0%nat.
Proof.
  apply (main_search_url_skips_search (world_listing five_entries)
           (lit "https://www.youtube.com/@TED/videos") initial_state).
  reflexivity.
Defined.

Lemma get_channel_videos_returns_none_witness :
  get_channel_videos world_empty_channel_page (lit "TED") 10 initial_state
  = (Return None,
     logged initial_state
       [CallExtractInfo (lit "ytsearch1:TED");
        CallExtractInfo (lit "https://www.youtube.com/channel/UCabc/videos")]
       (files initial_state)).
Proof.
  apply (get_channel_videos_returns_none world_empty_channel_page (lit "TED")
           10 initial_state search_hit []
           (lit "https://www.youtube.com/channel/UCabc/videos"));
    reflexivity.
Defined.

(** In that world the first direct URL would have listed a video. *)
Example first_direct_url_lists_a_video :
  exists vs,
    (_get_videos_from_url world_empty_channel_page
       (lit "https://www.youtube.com/@TED/videos") 10 initial_state).1
    = Return (Some vs)
    /\ List.map v_id vs = [lit "v1"].
Proof. eexists. split; reflexivity. Qed.

Lemma make_filesafe_title_keeps_trailing_dot_witness :
  make_filesafe_title ascii_NFKD ascii_is_Mn (lit "a.") = lit "a."
  /\ ends_with (N.eqb 46)
       (make_filesafe_title ascii_NFKD ascii_is_Mn (lit "a.")) = true.
Proof.
  apply (make_filesafe_title_keeps_trailing_dot ascii_NFKD ascii_is_Mn);
    reflexivity.
Defined.

Example video_id_watch :
  video_id_of (lit "https://www.youtube.com/watch?v=abc123&t=10") = lit "abc123".
Proof. reflexivity. Qed.

Example filesafe_title_example :
  make_filesafe_title ascii_NFKD ascii_is_Mn (lit "What is: A/B?  part 2 ")
  = lit "What_is_A_B_part_2".
Proof. reflexivity. Qed.

Example clean_text_example :
  clean_text (lit "  a   b ") = lit "a b".
Proof. reflexivity. Qed.

(** * Further properties *)

(** ** Text normaliser *)

Lemma nonspace_app a b : nonspace (a ++ b) = nonspace a ++ nonspace b.
Proof. apply List.filter_app. Qed.

Lemma nonspace_cons c s :
  nonspace (c :: s) = if isspace c then nonspace s else c :: nonspace s.
Proof. unfold nonspace. simpl. by destruct (isspace c). Qed.

Lemma nonspace_sub_ws b s : nonspace (sub_ws_from (lit " ") b s) = nonspace s.
Proof.
  revert b; induction s as [|c s IH]; intros b; [done|].
  cbn [sub_ws_from]. rewrite (nonspace_cons c s).
  destruct (isspace c) eqn:Hc.
  - destruct b; [apply IH|].
    change (lit " " ++ sub_ws_from (lit " ") true s)
      with (32 :: sub_ws_from (lit " ") true s).
    rewrite nonspace_cons. apply IH.
  - by rewrite nonspace_cons, Hc, IH.
Qed.

Lemma nonspace_lstrip s : nonspace (lstrip_by isspace s) = nonspace s.
Proof.
  induction s as [|c s IH]; [done|]. cbn [lstrip_by].
  rewrite (nonspace_cons c s).
  destruct (isspace c) eqn:Hc; [done|]. by rewrite nonspace_cons, Hc.
Qed.

Lemma nonspace_rstrip s : nonspace (rstrip_by isspace s) = nonspace s.
Proof.
  induction s as [|c s IH]; [done|]. cbn [rstrip_by].
  rewrite (nonspace_cons c s), <- IH.
  destruct (rstrip_by isspace s) as [|r rs].
  - destruct (isspace c) eqn:Hc; [done|]. by rewrite nonspace_cons, Hc.
  - by rewrite (nonspace_cons c).
Qed.

Lemma nonspace_strip s : nonspace (strip s) = nonspace s.
Proof. unfold strip. by rewrite nonspace_rstrip, nonspace_lstrip. Qed.

Lemma lstrip_length p s : (length (lstrip_by p s) <= length s)%nat.
Proof.
  induction s as [|c s IH]; simpl; [done|]. destruct (p c); simpl; lia.
Qed.

Lemma sub_ws_length b s :
  (length (sub_ws_from (lit " ") b s) <= length s)%nat.
Proof.
  revert b; induction s as [|c s IH]; intros b; simpl; [done|].
  destruct (isspace c); [destruct b|]; simpl;
    [specialize (IH true)|specialize (IH true)|specialize (IH false)]; lia.
Qed.

(** X1: [clean_text] is idempotent and never makes a text longer. *)
Theorem clean_text_idempotent text :
  clean_text (clean_text text) = clean_text text
  /\ (length (clean_text text) <= length text)%nat.
Proof.
  split; [apply clean_text_idem|].
  unfold clean_text, strip, re_sub_ws.
  etrans; [apply rstrip_length|]. etrans; [apply lstrip_length|].
  apply sub_ws_length.
Qed.

(** X2: [clean_text] keeps every character that is not whitespace, in
    order: only whitespace is removed or replaced. *)
Theorem clean_text_keeps_content text :
  nonspace (clean_text text) = nonspace text.
Proof.
  unfold clean_text, re_sub_ws. by rewrite nonspace_strip, nonspace_sub_ws.
Qed.

Lemma nonspace_nil_head s :
  nonspace s = [] -> starts_with_space s = false -> s = [].
Proof.
  destruct s as [|c s]; [done|]. rewrite nonspace_cons. simpl.
  intros H Hc. by rewrite Hc in H.
Qed.

(** X3: [clean_text] returns the empty string exactly for the texts made
    of whitespace only (the empty text included). *)
Theorem clean_text_empty_iff text :
  clean_text text = [] <-> forallb isspace text = true.
Proof.
  assert (forall s, nonspace s = [] <-> forallb isspace s = true) as Hns.
  { induction s as [|c s IH]; [done|]. rewrite nonspace_cons. simpl.
    destruct (isspace c); simpl; [apply IH|]. split; discriminate. }
  rewrite <- Hns, <- clean_text_keeps_content. split.
  - by intros ->.
  - intros H. apply nonspace_nil_head; [done|apply strip_no_leading].
Qed.

Lemma sub_ws_no_space repl b s :
  Forall (fun c => isspace c = false) repl ->
  Forall (fun c => isspace c = false) (sub_ws_from repl b s).
Proof.
  intros Hrepl. revert b; induction s as [|c s IH]; intros b; simpl;
    [constructor|].
  destruct (isspace c) eqn:Hc; [destruct b|].
  - apply IH.
  - apply Forall_app; split; [done|apply IH].
  - constructor; [done|apply IH].
Qed.

(** X4: a file-safe title holds no whitespace character at all. *)
Theorem make_filesafe_title_no_whitespace nfkd is_mn title :
  Forall (fun c => isspace c = false) (make_filesafe_title nfkd is_mn title).
Proof.
  unfold make_filesafe_title.
  apply (str_or_cases (Forall (fun c => isspace c = false)));
    [|by repeat constructor].
  assert (forall s,
    Forall (fun c => isspace c = false)
      (rstrip_chars (lit "_") (strip (re_sub_ws (lit "_") s)))) as Hbase.
  { intros s. apply Forall_rstrip, Forall_strip, sub_ws_no_space.
    by repeat constructor. }
  destruct (_ <? _)%nat; [|apply Hbase].
  apply Forall_rstrip, Forall_take, Hbase.
Qed.

Lemma sub_ws_all_space repl s :
  Forall (fun c => isspace c = true) s ->
  sub_ws_from repl true s = []
  /\ sub_ws_from repl false s = match s with [] => [] | _ => repl end.
Proof.
  induction 1 as [|c s Hc _ [IHt IHf]]; [done|].
  simpl. rewrite Hc, IHt. by rewrite app_nil_r.
Qed.

(** X5: when the normalised title holds nothing but characters of the
    forbidden class, whitespace and control characters, the file-safe
    title is the literal script. *)
Theorem make_filesafe_title_fallback nfkd is_mn title :
  Forall (fun c => forbidden c || isspace c || (c <? 32) = true)
    (_normalize_visible_text nfkd is_mn title) ->
  make_filesafe_title nfkd is_mn title = lit "script".
Proof.
  intros Hall. unfold make_filesafe_title.
  destruct (_normalize_visible_text nfkd is_mn title) as [|c0 s0] eqn:Hnorm;
    [reflexivity|].
  cbn [str_or]. remember (c0 :: s0) as s eqn:Hs. clear Hs Hnorm c0 s0.
  assert (Forall (fun c => isspace c = true)
            (List.filter (fun ch => 32 <=? ch)
               (re_sub_class forbidden (lit " ") s))) as Hws.
  { induction Hall as [|c s Hc _ IH]; [constructor|].
    unfold re_sub_class in *. cbn [flat_map].
    rewrite List.filter_app. apply Forall_app. split; [|done].
    destruct (forbidden c) eqn:Hf; [by repeat constructor|].
    simpl in Hc |- *. destruct (32 <=? c) eqn:H32; [|constructor].
    constructor; [|constructor].
    destruct (isspace c); [done|]. simpl in Hc.
    apply N.ltb_lt in Hc. apply N.leb_le in H32. lia. }
  destruct (sub_ws_all_space (lit "_") _ Hws) as [_ Hsub].
  unfold re_sub_ws. rewrite Hsub.
  by destruct (List.filter _ _).
Qed.

(** ** The video id *)

Lemma video_id_first_piece video_url :
  video_id_of video_url
  = up_to 38 (last_piece (str_split (lit "v=") video_url)).
Proof.
  unfold video_id_of, first_piece, str_split at 1.
  change (lit "&") with [38]. by rewrite split_from_first by lia.
Qed.

Lemma up_to_absent_char c s : c ∉ up_to c s.
Proof.
  induction s as [|x s IH]; simpl; [apply not_elem_of_nil|].
  destruct (x =? c) eqn:Hx; [apply not_elem_of_nil|].
  apply not_elem_of_cons. split; [|done].
  intros ->. by rewrite N.eqb_refl in Hx.
Qed.

Lemma startswith_app sep a b :
  startswith sep a = true -> startswith sep (a ++ b) = true.
Proof.
  revert a; induction sep as [|p sep IH]; intros a; [done|].
  destruct a as [|c a]; [done|]. simpl.
  intros [-> H]%andb_prop. by rewrite IH.
Qed.

Lemma occurs_app_false sep a b :
  occurs sep (a ++ b) = false -> occurs sep a = false.
Proof.
  induction a as [|c a IH].
  - destruct sep as [|p sep]; [by destruct b|done].
  - cbn [app]. rewrite !occurs_cons.
    intros [Hsw Hocc]%orb_false_elim. rewrite (IH Hocc), orb_false_r.
    destruct (startswith sep (c :: a)) eqn:Ha; [|done].
    pose proof (startswith_app sep (c :: a) b Ha) as Hab.
    cbn [app] in Hab. congruence.
Qed.

Lemma up_to_prefix c s : exists rest, s = up_to c s ++ rest.
Proof.
  induction s as [|x s [rest IH]]; [by exists []|]. simpl.
  destruct (x =? c); [by exists (x :: s)|].
  exists rest. simpl. by f_equal.
Qed.

(** Where the marker occurs, it has a last occurrence. *)
Lemma last_occurrence a b s :
  occurs [a; b] s = true ->
  exists pre post, s = pre ++ a :: b :: post /\ occurs [a; b] post = false.
Proof.
  induction s as [|c s IH]; [done|].
  rewrite occurs_cons. destruct (occurs [a; b] s) eqn:Hs.
  - intros _. destruct (IH eq_refl) as (pre & post & -> & Hpost).
    by exists (c :: pre), post.
  - rewrite orb_false_r. intros Hsw. exists [].
    destruct s as [|c' s]; simpl in Hsw; [by rewrite andb_false_r in Hsw|].
    apply andb_prop in Hsw as [Hc Hsw]. apply andb_prop in Hsw as [Hc' _].
    apply N.eqb_eq in Hc, Hc'. subst c c'. exists s. split; [done|].
    rewrite occurs_cons in Hs. by apply orb_false_elim in Hs as [_ Hs].
Qed.

(** X7: the video id never holds an ampersand, nor the marker v=. *)
Theorem video_id_of_clean video_url :
  (38 ∉ video_id_of video_url)
  /\ occurs (lit "v=") (video_id_of video_url) = false.
Proof.
  split; [rewrite video_id_first_piece; apply up_to_absent_char|].
  destruct (occurs (lit "v=") video_url) eqn:Hocc.
  - change (lit "v=") with [118; 61] in *.
    destruct (last_occurrence _ _ _ Hocc) as (pre & post & -> & Hpost).
    change (pre ++ 118 :: 61 :: post) with (pre ++ lit "v=" ++ post).
    rewrite video_id_after_last by done.
    destruct (up_to_prefix 38 post) as [rest Hrest].
    rewrite Hrest in Hpost. by apply occurs_app_false in Hpost.
  - rewrite video_id_no_marker by done.
    destruct (up_to_prefix 38 video_url) as [rest Hrest].
    rewrite Hrest in Hocc. by apply occurs_app_false in Hocc.
Qed.

(** ** Transcript acquirer, further *)

(** X8: the file calls of [get_youtube_script] itself.  Every download it
    asks for is the download of its own argument to audio.mp3, and it
    asks for it whenever the captions are unavailable.  [os.remove] is
    called on no other path than audio.mp3, and only after a
    transcription that succeeded, whose cleaned text is then the result;
    and after such a transcription it is called. *)
Theorem get_youtube_script_file_calls w video_url lang title st :
  exists r fs evs,
    get_youtube_script w video_url lang title st = (r, logged st evs fs)
    /\ (forall url filename,
          CallDownload url filename ∈ evs ->
          url = video_url /\ filename = audio_file_name)
    /\ (forall path,
          CallRemove path ∈ evs ->
          path = audio_file_name
          /\ exists raw,
               model_transcribe w audio_file_name = Return raw
               /\ r = Return (Some (clean_text raw)))
    /\ (forall e,
          caption_outcome w video_url lang = Raise e ->
          no_captions e = true ->
          CallDownload video_url audio_file_name ∈ evs)
    /\ (forall e raw,
          caption_outcome w video_url lang = Raise e ->
          no_captions e = true ->
          ydl_download w video_url audio_file_name = Return tt ->
          whisper_load_model w (lit "small") = Return tt ->
          model_transcribe w audio_file_name = Return raw ->
          CallRemove audio_file_name ∈ evs).
Proof.
  rewrite get_youtube_script_run. cbv zeta.
  destruct (caption_outcome w video_url lang) as [segments|e0];
    [|destruct (no_captions e0) eqn:He0;
      [destruct (ydl_download w video_url audio_file_name) as [[]|e1];
       [destruct (whisper_load_model w (lit "small")) as [[]|e2];
        [destruct (model_transcribe w audio_file_name) as [text|e3]|]|]|]];
    (eexists _, _, _; split; [reflexivity|]);
    repeat split; intros;
    repeat match goal with
           | H : _ ∈ _ :: _ |- _ => apply elem_of_cons in H as [H|H]
           | H : _ ∈ [] |- _ => by apply elem_of_nil in H
           | H : CallDownload _ _ = CallDownload _ _ |- _ =>
               injection H as -> ->
           | H : CallRemove _ = CallRemove _ |- _ => injection H as ->
           end;
    try done; try congruence; eauto;
    repeat (apply elem_of_cons; first [left; reflexivity | right]).
Qed.

(** X9: [get_youtube_script] always returns, and it returns a text in
    exactly two cases: the captions were fetched, and the text is their
    cleaned join; or the captions were unavailable and download, model
    load and transcription all succeeded, and the text is the cleaned
    transcription.  In every other case it returns [None]. *)
Theorem get_youtube_script_some_iff w video_url lang title st :
  exists r,
    (get_youtube_script w video_url lang title st).1 = Return r
    /\ (forall text,
          r = Some text
          <->
          (exists segments,
              caption_outcome w video_url lang = Return segments
              /\ text = clean_text (str_join (lit " ") segments))
          \/ (exists e raw,
                caption_outcome w video_url lang = Raise e
                /\ no_captions e = true
                /\ ydl_download w video_url audio_file_name = Return tt
                /\ whisper_load_model w (lit "small") = Return tt
                /\ model_transcribe w audio_file_name = Return raw
                /\ text = clean_text raw))
    /\ (r = None
        <->
        (exists e, caption_outcome w video_url lang = Raise e
                   /\ no_captions e = false)
        \/ (exists e, caption_outcome w video_url lang = Raise e
                      /\ no_captions e = true
                      /\ ((exists e', ydl_download w video_url audio_file_name
                                      = Raise e')
                          \/ (exists e', whisper_load_model w (lit "small")
                                         = Raise e')
                          \/ (exists e', model_transcribe w audio_file_name
                                         = Raise e')))).
Proof.
  rewrite get_youtube_script_run. cbv zeta.
  destruct (caption_outcome w video_url lang) as [segments|e0].
  { eexists. cbn [fst]. split; [reflexivity|]. split; [intros text; split|split].
    - intros [= <-]. left. eauto.
    - intros [(segs & [= ->] & ->)|(e & raw & ? & _)]; done.
    - done.
    - intros [(e & ? & _)|(e & ? & _)]; done. }
  destruct (no_captions e0) eqn:He0.
  2:{ eexists. cbn [fst]. split; [reflexivity|].
      split; [intros text; split|split].
      - done.
      - intros [(segs & ? & _)|(e & raw & [= <-] & He & _)]; congruence.
      - intros _. left. eauto.
      - done. }
  destruct (ydl_download w video_url audio_file_name) as [[]|e1].
  2:{ eexists. cbn [fst]. split; [reflexivity|].
      split; [intros text; split|split].
      - done.
      - intros [(segs & ? & _)|(e & raw & _ & _ & ? & _)]; done.
      - intros _. right. exists e0. eauto 6.
      - done. }
  destruct (whisper_load_model w (lit "small")) as [[]|e2].
  2:{ eexists. cbn [fst]. split; [reflexivity|].
      split; [intros text; split|split].
      - done.
      - intros [(segs & ? & _)|(e & raw & _ & _ & _ & ? & _)]; done.
      - intros _. right. exists e0. eauto 6.
      - done. }
  destruct (model_transcribe w audio_file_name) as [raw0|e3].
  2:{ eexists. cbn [fst]. split; [reflexivity|].
      split; [intros text; split|split].
      - done.
      - intros [(segs & ? & _)|(e & raw & _ & _ & _ & _ & ? & _)]; done.
      - intros _. right. exists e0. eauto 6.
      - done. }
  eexists. cbn [fst]. split; [reflexivity|].
  split; [intros text; split|split].
  - intros [= <-]. right. exists e0, raw0. done.
  - intros [(segs & ? & _)|(e & raw & _ & _ & _ & _ & [= ->] & ->)]; done.
  - done.
  - intros [(e & [= <-] & ?)|(e & _ & _ & [[e' ?]|[[e' ?]|[e' ?]]])];
      congruence.
Qed.

(** ** Listing fetch, further *)

Lemma videos_from_length i es : (length (videos_from i es) <= length es)%nat.
Proof.
  revert i; induction es as [|entry es IH]; intros i; simpl; [done|].
  destruct (truthy (e_id entry)); simpl; specialize (IH (S i)); lia.
Qed.

Lemma slice_to_length {A} n (l : list A) :
  (0 <= n)%Z -> (Z.of_nat (length (slice_to n l)) <= n)%Z.
Proof.
  intros Hn. unfold slice_to. replace (0 <=? n)%Z with true by lia.
  rewrite length_take. lia.
Qed.

Lemma listing_result_some max_results answer vs :
  listing_result max_results answer = Return (Some vs) ->
  exists es,
    answer = Return (Some {| entries := Some es |})
    /\ vs = videos_from 1 (slice_to max_results es)
    /\ vs <> [].
Proof.
  unfold listing_result.
  destruct answer as [[[[es|]]|]|e]; try done.
  destruct (videos_from 1 (slice_to max_results es)) as [|v vs'] eqn:Hvs;
    [done|].
  intros [= <-]. exists es. by rewrite Hvs.
Qed.

(** X11: a list returned by the listing fetch is not empty, has at most
    as many videos as the provider listed, and at most [max_results] of
    them when [max_results] is not negative. *)
Theorem _get_videos_from_url_length w channel_url max_results st vs :
  (_get_videos_from_url w channel_url max_results st).1 = Return (Some vs) ->
  (1 <= length vs)%nat
  /\ (exists es,
        ydl_extract_info w channel_url = Return (Some {| entries := Some es |})
        /\ (length vs <= length es)%nat)
  /\ ((0 <= max_results)%Z -> (Z.of_nat (length vs) <= max_results)%Z).
Proof.
  rewrite _get_videos_from_url_run. cbn [fst].
  intros (es & Hes & -> & Hne)%listing_result_some.
  pose proof (videos_from_length 1 (slice_to max_results es)) as Hlen.
  split; [|split].
  - destruct (videos_from 1 (slice_to max_results es)); [done|simpl; lia].
  - exists es. split; [done|]. etrans; [apply Hlen|].
    unfold slice_to. destruct (0 <=? max_results)%Z; rewrite length_take; lia.
  - intros Hmax. pose proof (slice_to_length max_results es Hmax). lia.
Qed.

Lemma videos_from_sorted i es :
  Forall (fun v => (i <= v_index v)%nat) (videos_from i es)
  /\ StronglySorted lt (List.map v_index (videos_from i es)).
Proof.
  revert i; induction es as [|entry es IH]; intros i; simpl.
  { split; constructor. }
  destruct (IH (S i)) as [Hge Hsorted].
  assert (Forall (fun v => (i <= v_index v)%nat) (videos_from (S i) es)) as Hge'.
  { eapply Forall_impl; [apply Hge|]. simpl. lia. }
  destruct (truthy (e_id entry)); simpl; [|done].
  split; [by constructor|]. constructor; [done|].
  apply Forall_map. eapply Forall_impl; [apply Hge|]. simpl. lia.
Qed.

(** X12: the ranks of the returned videos are strictly increasing in
    list order; in particular no two videos share a rank. *)
Theorem _get_videos_from_url_ranks_increase w channel_url max_results st vs :
  (_get_videos_from_url w channel_url max_results st).1 = Return (Some vs) ->
  StronglySorted lt (List.map v_index vs)
  /\ NoDup (List.map v_index vs).
Proof.
  rewrite _get_videos_from_url_run. cbn [fst].
  intros (es & _ & -> & _)%listing_result_some.
  destruct (videos_from_sorted 1 (slice_to max_results es)) as [_ Hs].
  split; [done|].
  induction Hs as [|x l Hs IH Hx]; constructor; [|done].
  intros Hin. rewrite Forall_forall in Hx.
  apply Hx in Hin. lia.
Qed.

Lemma videos_from_fields i es :
  Forall (fun v =>
            v_id v <> [] /\ v_url v <> []
            /\ (v_url v = lit "https://www.youtube.com/watch?v=" ++ v_id v
                \/ exists entry, entry ∈ es /\ e_url entry = Some (v_url v)))
    (videos_from i es).
Proof.
  revert i; induction es as [|entry es IH]; intros i; simpl; [constructor|].
  assert (Forall (fun v =>
            v_id v <> [] /\ v_url v <> []
            /\ (v_url v = lit "https://www.youtube.com/watch?v=" ++ v_id v
                \/ exists entry', entry' ∈ entry :: es
                                  /\ e_url entry' = Some (v_url v)))
            (videos_from (S i) es)) as Hrest.
  { eapply Forall_impl; [apply IH|]. simpl.
    intros v (Hid & Hurl & [Hw|(entry' & Hin & He)]); repeat split; eauto.
    right. exists entry'. split; [apply elem_of_cons; by right|done]. }
  destruct (e_id entry) as [[|c cs]|] eqn:Hid; simpl; try done.
  constructor; [|done]. simpl. split; [done|].
  destruct (e_url entry) as [[|u us]|] eqn:Hurl; simpl; split; try done;
    try (by left).
  right. exists entry. split; [apply elem_of_cons; by left|done].
Qed.

(** X13: every returned video has a non-empty id and a non-empty URL;
    the URL is the one the provider gave for some entry or, failing that,
    the watch URL built from the id. *)
Theorem _get_videos_from_url_fields w channel_url max_results st vs :
  (_get_videos_from_url w channel_url max_results st).1 = Return (Some vs) ->
  Forall (fun v =>
            v_id v <> [] /\ v_url v <> []
            /\ (v_url v = lit "https://www.youtube.com/watch?v=" ++ v_id v
                \/ exists es entry,
                     ydl_extract_info w channel_url
                       = Return (Some {| entries := Some es |})
                     /\ entry ∈ es /\ e_url entry = Some (v_url v)))
    vs.
Proof.
  rewrite _get_videos_from_url_run. cbn [fst].
  intros (es & Hes & -> & _)%listing_result_some.
  eapply Forall_impl; [apply videos_from_fields|]. simpl.
  intros v (Hid & Hurl & [Hw|(entry & Hin & He)]); repeat split; eauto.
  right. exists es, entry. repeat split; [done| |done].
  unfold slice_to in Hin.
  destruct (0 <=? max_results)%Z;
    by apply elem_of_take in Hin as (k & ?%list_elem_of_lookup_2 & _).
Qed.

(** X14: whatever the listing fetch raises is a plain exception, never
    one of the two caption exceptions, whose message starts with the
    fixed prefix; and when [extract_info] raises, the listing fetch
    raises, after that one call, the exception whose message is the
    prefix followed by the message of the one [extract_info] raised. *)
Theorem _get_videos_from_url_raises w channel_url max_results st :
  (forall e',
      (_get_videos_from_url w channel_url max_results st).1 = Raise e' ->
      exn_class_of e' = OtherException
      /\ no_captions e' = false
      /\ exists message, exn_msg e' = fetch_failed_prefix ++ message)
  /\ (forall e,
         ydl_extract_info w channel_url = Raise e ->
         _get_videos_from_url w channel_url max_results st
         = (Raise {| exn_class_of := OtherException;
                     exn_msg := fetch_failed_prefix ++ exn_msg e |},
            logged st [CallExtractInfo channel_url] (files st))).
Proof.
  rewrite _get_videos_from_url_run. cbn [fst]. unfold listing_result. split.
  - intros e'.
    destruct (ydl_extract_info w channel_url) as [[[[es|]]|]|e]; try done.
    + by destruct (videos_from 1 (slice_to max_results es)).
    + intros [= <-]. repeat split. by exists (exn_msg e).
  - by intros e ->.
Qed.

(** ** Channel resolver, further *)

Lemma logged_logged st evs1 evs2 fs1 fs2 :
  logged (logged st evs1 fs1) evs2 fs2 = logged st (evs1 ++ evs2) fs2.
Proof. unfold logged. cbn [files trace]. by rewrite app_assoc. Qed.

Lemma logged_nil st : logged st [] (files st) = st.
Proof. unfold logged. rewrite app_nil_r. by destruct st. Qed.

(** One turn of the loop over the direct URLs. *)
Lemma try_urls_cons w url urls max_results st :
  try_urls w (url :: urls) max_results st =
  match listing_result max_results (ydl_extract_info w url) with
  | Return (Some (v :: vs)) =>
      (Return (Some (Some (v :: vs))),
       logged st [CallExtractInfo url] (files st))
  | _ => try_urls w urls max_results (logged st [CallExtractInfo url] (files st))
  end.
Proof.
  cbn [try_urls]. unfold try_except, bind, ret.
  rewrite _get_videos_from_url_run.
  by destruct (listing_result max_results (ydl_extract_info w url))
    as [[[|v vs]|]|e].
Qed.

(** A run of the loop over the direct URLs. *)
Lemma try_urls_run w urls max_results st :
  exists found evs,
    try_urls w urls max_results st
      = (Return found, logged st (List.map CallExtractInfo evs) (files st))
    /\ (length evs <= length urls)%nat
    /\ match found with
       | Some videos =>
           exists url, url ∈ urls
             /\ listing_result max_results (ydl_extract_info w url)
                = Return videos
             /\ exists v vs, videos = Some (v :: vs)
       | None => evs = urls
       end.
Proof.
  revert st; induction urls as [|url urls IH]; intros st.
  { exists None, []. cbn [try_urls]. unfold ret.
    by rewrite logged_nil. }
  rewrite try_urls_cons.
  destruct (IH (logged st [CallExtractInfo url] (files st)))
    as (found & evs & Htry & Hlen & Hfound).
  assert (exists found' evs',
    try_urls w urls max_results (logged st [CallExtractInfo url] (files st))
      = (Return found',
         logged st (List.map CallExtractInfo evs') (files st))
    /\ (length evs' <= length (url :: urls))%nat
    /\ match found' with
       | Some videos =>
           exists url', url' ∈ url :: urls
             /\ listing_result max_results (ydl_extract_info w url')
                = Return videos
             /\ exists v vs, videos = Some (v :: vs)
       | None => evs' = url :: urls
       end) as Hrest.
  { exists found, (url :: evs). rewrite Htry, logged_logged.
    split; [done|]. split; [simpl; lia|].
    destruct found as [videos|]; [|by subst].
    destruct Hfound as (url' & Hin & Hres' & Hv).
    exists url'. split; [apply elem_of_cons; by right|done]. }
  destruct (listing_result max_results (ydl_extract_info w url))
    as [[[|v vs]|]|e] eqn:Hres; try done.
  exists (Some (Some (v :: vs))), [url]. split; [done|].
  split; [simpl; lia|]. exists url.
  split; [apply elem_of_cons; by left|]. split; [done|eauto].
Qed.

(** A run of the search strategy: the search, then at most one listing
    fetch. *)
Lemma search_strategy_run w channel_name max_results st :
  exists returned evs,
    search_strategy w channel_name max_results st
      = (Return returned,
         logged st (CallExtractInfo (lit "ytsearch1:" ++ channel_name)
                    :: List.map CallExtractInfo evs) (files st))
    /\ (length evs <= 1)%nat.
Proof.
  run_chain.
  destruct (ydl_extract_info w (lit "ytsearch1:" ++ channel_name))
    as [[[[[|first_result others]|]]|]|e];
    try (exists None, []; split; [done|simpl; lia]).
  destruct (search_channel_url first_result) as [channel_url|];
    [|exists None, []; split; [done|simpl; lia]].
  run_chain. rewrite _get_videos_from_url_run. unfold logged.
  cbn [files trace]. rewrite <- app_assoc.
  destruct (listing_result max_results (ydl_extract_info w channel_url))
    as [videos|e].
  - exists (Some videos), [channel_url]. split; [done|simpl; lia].
  - exists None, [channel_url]. split; [done|simpl; lia].
Qed.

(** A run of [get_channel_videos]. *)
Lemma get_channel_videos_run w channel_name max_results st :
  exists videos evs,
    get_channel_videos w channel_name max_results st
      = (Return videos,
         logged st (CallExtractInfo (lit "ytsearch1:" ++ channel_name)
                    :: List.map CallExtractInfo evs) (files st))
    /\ (length evs <= 5)%nat.
Proof.
  destruct (search_strategy_run w channel_name max_results st)
    as (returned & evs1 & Hsearch & Hlen1).
  unfold get_channel_videos, try_except, bind. rewrite Hsearch.
  destruct returned as [videos|].
  { exists videos, evs1. split; [done|lia]. }
  destruct (try_urls_run w (possible_urls channel_name) max_results
              (logged st (CallExtractInfo (lit "ytsearch1:" ++ channel_name)
                          :: List.map CallExtractInfo evs1) (files st)))
    as (found & evs2 & Htry & Hlen2 & _).
  rewrite Htry. cbn [files logged] in *.
  rewrite logged_logged.
  exists (match found with Some videos => videos | None => Some [] end),
    (evs1 ++ evs2).
  split.
  - rewrite List.map_app. by destruct found.
  - rewrite length_app. simpl in Hlen2. lia.
Qed.

Lemma try_urls_first_success w pre url post max_results st v vs :
  Forall (listing_fails w max_results) pre ->
  listing_result max_results (ydl_extract_info w url) = Return (Some (v :: vs)) ->
  try_urls w (pre ++ url :: post) max_results st
  = (Return (Some (Some (v :: vs))),
     logged st (List.map CallExtractInfo (pre ++ [url])) (files st)).
Proof.
  intros Hpre Hurl. revert st.
  induction Hpre as [|url0 pre Hfail _ IH]; intros st.
  { cbn [app]. by rewrite try_urls_cons, Hurl. }
  cbn [app]. rewrite try_urls_cons. unfold listing_fails in Hfail.
  destruct (listing_result max_results (ydl_extract_info w url0))
    as [[[|v0 vs0]|]|e] eqn:Hres.
  - by destruct (Hfail []).
  - by destruct (Hfail (v0 :: vs0)).
  - by rewrite IH, logged_logged.
  - by rewrite IH, logged_logged.
Qed.

(** X16: among the direct URLs the first success wins: when the search
    raises, the URLs before [url] fail and the listing of [url] has
    videos, these videos are returned and no later URL is fetched. *)
Theorem get_channel_videos_first_success
    w channel_name max_results st e pre url post v vs :
  ydl_extract_info w (lit "ytsearch1:" ++ channel_name) = Raise e ->
  possible_urls channel_name = pre ++ url :: post ->
  Forall (listing_fails w max_results) pre ->
  listing_result max_results (ydl_extract_info w url) = Return (Some (v :: vs)) ->
  get_channel_videos w channel_name max_results st
  = (Return (Some (v :: vs)),
     logged st (CallExtractInfo (lit "ytsearch1:" ++ channel_name)
                :: List.map CallExtractInfo (pre ++ [url])) (files st)).
Proof.
  intros Hsearch Hurls Hpre Hurl.
  cbv beta iota zeta delta
    [get_channel_videos search_strategy try_except bind call log ret].
  rewrite Hsearch. cbv beta iota zeta. rewrite Hurls.
  rewrite (try_urls_first_success _ _ _ _ _ _ v vs Hpre Hurl).
  unfold logged. cbn [files trace]. by rewrite <- app_assoc.
Qed.

(** X19: the channel URL built from a search result always uses the
    channel id, or the channel name when the id is missing, placed after
    the site root when it starts with an at sign and under /channel/
    otherwise; no URL is built exactly when both are missing or empty. *)
Theorem search_channel_url_shape first_result :
  match search_channel_url first_result with
  | Some channel_url =>
      exists cid,
        opt_or (e_channel_id first_result) (e_channel first_result) = Some cid
        /\ cid <> []
        /\ channel_url =
           if startswith (lit "@") cid
           then lit "https://www.youtube.com/" ++ cid ++ lit "/videos"
           else lit "https://www.youtube.com/channel/" ++ cid ++ lit "/videos"
  | None =>
      truthy (e_channel_id first_result) = false
      /\ truthy (e_channel first_result) = false
  end.
Proof.
  unfold search_channel_url, opt_or.
  destruct (truthy (e_channel_id first_result)) eqn:Hid.
  - cbn [orb]. rewrite Hid.
    destruct (e_channel_id first_result) as [[|c cid]|]; try done.
    change (default [] (Some (c :: cid))) with (c :: cid).
    destruct (startswith (lit "@") (c :: cid)) eqn:Hat; cbn [orb].
    + exists (c :: cid). by rewrite Hat.
    + destruct (startswith (lit "UC") (c :: cid));
        exists (c :: cid); by rewrite Hat.
  - cbn [orb]. destruct (truthy (e_channel first_result)) eqn:Hch; [|done].
    destruct (e_channel first_result) as [[|c cid]|]; try done.
    change (default [] (Some (c :: cid))) with (c :: cid).
    destruct (startswith (lit "@") (c :: cid)) eqn:Hat; cbn [orb].
    + exists (c :: cid). by rewrite Hat.
    + destruct (startswith (lit "UC") (c :: cid));
        exists (c :: cid); by rewrite Hat.
Qed.

(** ** Durations *)

Example format_duration_examples :
  format_duration exact_int_of_float (Some 3725%Z) = lit "1:02:05"
  /\ format_duration exact_int_of_float (Some 59%Z) = lit "0:59"
  /\ format_duration exact_int_of_float (Some (-1)%Z) = lit "59:59"
  /\ format_duration exact_int_of_float (Some 0%Z) = unknown_duration.
Proof. repeat split; reflexivity. Qed.

Lemma lit_String c s : lit (String c s) = N_of_ascii c :: lit s.
Proof. done. Qed.

Lemma str_of_N_digits n : Forall is_digit (str_of_N n).
Proof.
  unfold str_of_N. generalize (N.to_uint n). unfold is_digit.
  intros d; induction d; cbn [NilEmpty.string_of_uint];
    [constructor|rewrite lit_String; constructor; [by vm_compute|done]..].
Qed.

Lemma lit_inj s1 s2 : lit s1 = lit s2 -> s1 = s2.
Proof.
  revert s2; induction s1 as [|c1 s1 IH]; intros [|c2 s2]; try done.
  rewrite !lit_String. intros [= Hc Hs]. f_equal; [|by apply IH].
  by rewrite <- (ascii_N_embedding c1), <- (ascii_N_embedding c2), Hc.
Qed.

Lemma str_of_N_inj a b : str_of_N a = str_of_N b -> a = b.
Proof.
  unfold str_of_N. intros H%lit_inj.
  apply DecimalN.Unsigned.to_uint_inj.
  pose proof (NilEmpty.usu (N.to_uint a)) as Ha.
  rewrite H, NilEmpty.usu in Ha. by injection Ha.
Qed.

Lemma str_of_int_nonneg z : (0 <= z)%Z -> str_of_int z = str_of_N (Z.to_N z).
Proof. destruct z; [done|done|lia]. Qed.

Lemma format_02d_digits z : (0 <= z)%Z -> Forall is_digit (format_02d z).
Proof.
  intros Hz. unfold format_02d. rewrite str_of_int_nonneg by done.
  destruct (_ <? _)%nat; [constructor; [by vm_compute|]|];
    apply str_of_N_digits.
Qed.

Lemma digits_no_colon s : Forall is_digit s -> 58 ∉ s.
Proof.
  intros H Hin. rewrite Forall_forall in H.
  apply H in Hin. unfold is_digit in Hin. lia.
Qed.

(** Two texts cut at the first occurrence of a character. *)
Lemma app_cons_inj (c : N) a b x y :
  c ∉ a -> c ∉ b -> a ++ c :: x = b ++ c :: y -> a = b /\ x = y.
Proof.
  revert b; induction a as [|a0 a IH]; intros [|b0 b] Ha Hb; cbn [app].
  - by intros [= ->].
  - intros [= -> _]. destruct Hb. apply elem_of_cons. by left.
  - intros [= -> _]. destruct Ha. apply elem_of_cons. by left.
  - intros [= -> H]. apply not_elem_of_cons in Ha as [_ Ha].
    apply not_elem_of_cons in Hb as [_ Hb].
    destruct (IH b Ha Hb H) as [-> ->]. done.
Qed.

Lemma format_02d_value z :
  (0 <= z < 60)%Z -> two_digit_value (format_02d z) = Some z.
Proof.
  intros Hz.
  assert (forallb
            (fun k => bool_decide
                        (two_digit_value (format_02d (Z.of_nat k))
                         = Some (Z.of_nat k)))
            (seq 0 60) = true) as Hall by (by vm_compute).
  rewrite forallb_forall in Hall.
  assert (In (Z.to_nat z) (seq 0 60)) as Hin by (apply in_seq; lia).
  apply Hall in Hin. rewrite Z2Nat.id in Hin by lia.
  by apply bool_decide_eq_true in Hin.
Qed.

Lemma format_02d_inj a b :
  (0 <= a < 60)%Z -> (0 <= b < 60)%Z -> format_02d a = format_02d b -> a = b.
Proof.
  intros Ha Hb H. pose proof (format_02d_value a Ha) as Hva.
  rewrite H, format_02d_value in Hva by done. by injection Hva.
Qed.

Lemma str_of_int_inj a b :
  (0 <= a)%Z -> (0 <= b)%Z -> str_of_int a = str_of_int b -> a = b.
Proof.
  intros Ha Hb. rewrite !str_of_int_nonneg by done.
  intros H%str_of_N_inj. lia.
Qed.

Lemma duration_parts s :
  (s = 3600 * (s / 3600) + 60 * (s mod 3600 / 60) + s mod 60)%Z
  /\ (0 <= s mod 3600 / 60 < 60)%Z /\ (0 <= s mod 60 < 60)%Z.
Proof.
  pose proof (Z.div_mod s 3600 ltac:(lia)) as H1.
  pose proof (Z.mod_pos_bound s 3600 ltac:(lia)) as B1.
  pose proof (Z.div_mod (s mod 3600) 60 ltac:(lia)) as H2.
  pose proof (Z.mod_pos_bound (s mod 3600) 60 ltac:(lia)) as B2.
  pose proof (Z.mod_pos_bound s 60 ltac:(lia)) as B3.
  assert (s mod 60 = (s mod 3600) mod 60)%Z as H3.
  { symmetry. apply Z.mod_mod_divide. exists 60%Z. lia. }
  split; [lia|]. split; [|lia].
  split; [apply Z.div_pos; lia|apply Z.div_lt_upper_bound; lia].
Qed.

(** X20: distinct positive durations are displayed differently: for
    positive numbers of seconds that the conversion leaves unchanged,
    equal texts come from equal durations. *)
Theorem format_duration_injective int_of_float s1 s2 :
  (0 < s1)%Z -> (0 < s2)%Z ->
  int_of_float s1 = s1 -> int_of_float s2 = s2 ->
  format_duration int_of_float (Some s1) = format_duration int_of_float (Some s2) ->
  s1 = s2.
Proof.
  intros H1 H2 E1 E2. unfold format_duration.
  destruct s1 as [|p1|p1]; [lia| |lia]. destruct s2 as [|p2|p2]; [lia| |lia].
  rewrite E1, E2. cbv zeta. change (lit ":") with [58]. cbn [app].
  destruct (duration_parts (Z.pos p1)) as (D1 & M1 & S1).
  destruct (duration_parts (Z.pos p2)) as (D2 & M2 & S2).
  set (h1 := (Z.pos p1 / 3600)%Z) in *. set (h2 := (Z.pos p2 / 3600)%Z) in *.
  set (m1 := (Z.pos p1 mod 3600 / 60)%Z) in *.
  set (m2 := (Z.pos p2 mod 3600 / 60)%Z) in *.
  set (c1 := (Z.pos p1 mod 60)%Z) in *. set (c2 := (Z.pos p2 mod 60)%Z) in *.
  assert (forall z, (0 <= z)%Z -> 58 ∉ str_of_int z) as Hint.
  { intros z Hz. rewrite str_of_int_nonneg by done.
    apply digits_no_colon, str_of_N_digits. }
  assert (forall z, (0 <= z)%Z -> 58 ∉ format_02d z) as Hpad.
  { intros z Hz. by apply digits_no_colon, format_02d_digits. }
  assert (0 <= h1)%Z as Hh1 by (apply Z.div_pos; lia).
  assert (0 <= h2)%Z as Hh2 by (apply Z.div_pos; lia).
  destruct (0 <? h1)%Z eqn:P1, (0 <? h2)%Z eqn:P2.
  - intros H. apply app_cons_inj in H as [Hh H]; [|by apply Hint..].
    apply app_cons_inj in H as [Hm Hc]; [|apply Hpad; lia..].
    apply str_of_int_inj in Hh; [|done..].
    apply format_02d_inj in Hm; [|done..].
    apply format_02d_inj in Hc; [|done..]. lia.
  - intros H. apply app_cons_inj in H as [_ H]; [|apply Hint; lia..].
    assert (58 ∈ format_02d c2) as Hin.
    { rewrite <- H. apply elem_of_app. right. apply elem_of_cons. by left. }
    by apply Hpad in Hin; [|lia].
  - intros H. apply app_cons_inj in H as [_ H]; [|apply Hint; lia..].
    assert (58 ∈ format_02d c1) as Hin.
    { rewrite H. apply elem_of_app. right. apply elem_of_cons. by left. }
    by apply Hpad in Hin; [|lia].
  - intros H. apply app_cons_inj in H as [Hm Hc]; [|apply Hint; lia..].
    apply str_of_int_inj in Hm; [|lia..].
    apply format_02d_inj in Hc; [|done..].
    apply Z.ltb_ge in P1, P2. lia.
Qed.

(** X21: for every number of seconds other than zero that the conversion
    leaves unchanged, negative ones included, the text is made of digits
    and colons only: no sign is ever shown. *)
Theorem format_duration_digits int_of_float s :
  s <> 0%Z -> int_of_float s = s ->
  Forall (fun c => is_digit c \/ c = 58)
    (format_duration int_of_float (Some s)).
Proof.
  intros Hs E. unfold format_duration.
  assert (forall l, Forall is_digit l ->
                    Forall (fun c => is_digit c \/ c = 58) l) as Hd.
  { intros l Hl. eapply Forall_impl; [apply Hl|]. simpl. by left. }
  assert (Forall (fun c => is_digit c \/ c = 58)
            (let seconds := int_of_float s in
             let hours := (seconds / 3600)%Z in
             let minutes := (seconds mod 3600 / 60)%Z in
             let secs := (seconds mod 60)%Z in
             if (0 <? hours)%Z
             then str_of_int hours ++ lit ":" ++ format_02d minutes
                  ++ lit ":" ++ format_02d secs
             else str_of_int minutes ++ lit ":" ++ format_02d secs)) as H.
  { rewrite E. cbv zeta.
    destruct (duration_parts s) as (_ & M & S).
    destruct (0 <? s / 3600)%Z eqn:P; repeat (apply Forall_app; split);
      try (apply Hd, format_02d_digits; lia);
      try (constructor; [by right|constructor]).
    - apply Z.ltb_lt in P. rewrite str_of_int_nonneg by lia.
      apply Hd, str_of_N_digits.
    - rewrite str_of_int_nonneg by lia. apply Hd, str_of_N_digits. }
  destruct s; [done|done|done].
Qed.

(** ** Sentence segmenter *)

Example split_into_sentences_examples :
  split_into_sentences (lit "Hello world. How are you? Fine!")
  = [lit "Hello world."; lit "How are you?"; lit "Fine!"]
  /\ split_into_sentences (lit "no punctuation here")
     = [lit "no punctuation here"]
  /\ split_into_sentences (lit "Wait... what?!  ok" ++ [10; 10] ++ lit " v1.2 is out. ")
     = [lit "Wait..."; lit "what?!"; lit "ok"; lit "v1.2 is out."]
  /\ split_into_sentences [] = [[]].
Proof. repeat split; reflexivity. Qed.

Example re_split_sentences_examples :
  re_split_sentences (lit "..! !. a")
  = [[]; lit "..! "; []; lit "!. "; lit "a"]
  /\ re_split_sentences (lit " . x") = [lit " "; lit ". "; lit "x"]
  /\ re_split_sentences (lit "v1.2 is out. ")
     = [lit "v1.2 is out"; lit ". "; []].
Proof. repeat split; reflexivity. Qed.

Lemma span_app p s : (span p s).1 ++ (span p s).2 = s.
Proof.
  induction s as [|c s IH]; [done|]. simpl.
  destruct (p c); [|done]. destruct (span p s) as [a b]. simpl in *.
  by rewrite IH.
Qed.

(** Splitting with a captured separator loses nothing. *)
Lemma re_split_from_concat n cur s :
  concat (re_split_from n cur s) = rev cur ++ s.
Proof.
  revert cur s; induction n as [|n IH]; intros cur s; simpl;
    [by rewrite app_nil_r|].
  destruct s as [|c s]; [simpl; by rewrite !app_nil_r|].
  destruct (is_terminator c) eqn:Hc.
  - pose proof (span_app is_terminator (c :: s)) as Hmarks.
    destruct (span is_terminator (c :: s)) as [marks rest].
    pose proof (span_app isspace rest) as Hspaces.
    destruct (span isspace rest) as [spaces rest']. simpl in *.
    destruct spaces as [|sp spaces].
    + rewrite IH, rev_app_distr, rev_involutive, <- app_assoc.
      by rewrite Hmarks.
    + cbn [concat]. rewrite IH. cbn [rev app].
      rewrite <- Hmarks, <- Hspaces. by rewrite <- !app_assoc.
  - rewrite IH. simpl. by rewrite <- app_assoc.
Qed.

Lemma strip_nil_nonspace s : strip s = [] -> nonspace s = [].
Proof. intros H. by rewrite <- nonspace_strip, H. Qed.

Lemma nonspace_concat_snoc result s :
  nonspace (concat (result ++ [s])) = nonspace (concat result) ++ nonspace s.
Proof. by rewrite concat_app, nonspace_app; simpl; rewrite app_nil_r. Qed.

Lemma sentences_loop_content parts current result :
  nonspace (concat (sentences_loop parts current result).2)
    ++ nonspace (sentences_loop parts current result).1
  = nonspace (concat result) ++ nonspace current ++ nonspace (concat parts).
Proof.
  revert current result; induction parts as [|part parts IH];
    intros current result; [simpl; by rewrite app_nil_r|].
  cbn [sentences_loop concat]. rewrite nonspace_app.
  destruct part as [|c part]; [apply IH|].
  remember (c :: part) as p eqn:Hp. clear Hp.
  destruct (ends_sentence (current ++ p)).
  - destruct (strip (current ++ p)) as [|x sentence] eqn:Hstrip.
    + rewrite IH, nonspace_app. by rewrite <- !app_assoc.
    + rewrite IH, nonspace_concat_snoc, <- Hstrip, nonspace_strip.
      rewrite nonspace_app. simpl. by rewrite <- !app_assoc.
  - rewrite IH, nonspace_app. by rewrite <- !app_assoc.
Qed.

Lemma paragraphs_loop_content paragraphs result :
  nonspace (concat (paragraphs_loop paragraphs result))
  = nonspace (concat result) ++ nonspace (concat paragraphs).
Proof.
  revert result; induction paragraphs as [|para paragraphs IH];
    intros result; [simpl; by rewrite app_nil_r|].
  cbn [paragraphs_loop concat]. rewrite nonspace_app.
  destruct (strip para) as [|x0 stripped] eqn:Hpara.
  { rewrite IH, (strip_nil_nonspace para Hpara). done. }
  clear Hpara.
  pose proof (sentences_loop_content (re_split_sentences para) [] result)
    as Hloop.
  unfold re_split_sentences in *. rewrite re_split_from_concat in Hloop.
  destruct (sentences_loop (re_split_from (S (length para)) [] para) [] result)
    as [current result']. cbn [fst snd rev app] in Hloop.
  destruct (strip current) as [|x sentence] eqn:Hcur.
  - rewrite IH. rewrite (strip_nil_nonspace current Hcur), app_nil_r in Hloop.
    by rewrite Hloop, <- app_assoc.
  - rewrite IH, nonspace_concat_snoc, <- Hcur, nonspace_strip, Hloop.
    by rewrite <- !app_assoc.
Qed.

Lemma split_newline_content n cur s :
  nonspace (concat (split_from n [10] cur s)) = nonspace (rev cur ++ s).
Proof.
  revert cur s; induction n as [|n IH]; intros cur s;
    [simpl; by rewrite app_nil_r|].
  cbn [split_from].
  destruct s as [|c s]; [simpl; by rewrite !app_nil_r|].
  cbn [startswith]. rewrite andb_true_r.
  destruct (10 =? c) eqn:Hc.
  - apply N.eqb_eq in Hc; subst c. cbn [concat length drop].
    rewrite !nonspace_app, IH. by rewrite nonspace_cons.
  - rewrite IH. simpl. by rewrite <- app_assoc.
Qed.

(** X22: segmentation loses no content: the characters other than
    whitespace of the sentences, taken in order, are exactly those of the
    text; and the result is never an empty list. *)
Theorem split_into_sentences_content text :
  nonspace (concat (split_into_sentences text)) = nonspace text
  /\ split_into_sentences text <> [].
Proof.
  unfold split_into_sentences.
  pose proof (paragraphs_loop_content (str_split [10] text) []) as H.
  unfold str_split in *. rewrite split_newline_content in H.
  destruct (paragraphs_loop (split_from (S (length text)) [10] [] text) []);
    [|done].
  split; [|done]. simpl. by rewrite app_nil_r.
Qed.

Lemma sentences_loop_sentences parts current result :
  Forall is_sentence result ->
  Forall is_sentence (sentences_loop parts current result).2.
Proof.
  revert current result; induction parts as [|part parts IH];
    intros current result Hres; [done|].
  cbn [sentences_loop]. destruct part as [|c part]; [by apply IH|].
  remember (c :: part) as p eqn:Hp. clear Hp.
  destruct (ends_sentence (current ++ p)); [|by apply IH].
  destruct (strip (current ++ p)) as [|x sentence] eqn:Hstrip; [by apply IH|].
  apply IH, Forall_app. split; [done|]. constructor; [|constructor].
  split; [done|]. rewrite <- Hstrip. apply strip_idem.
Qed.

Lemma paragraphs_loop_sentences paragraphs result :
  Forall is_sentence result ->
  Forall is_sentence (paragraphs_loop paragraphs result).
Proof.
  revert result; induction paragraphs as [|para paragraphs IH];
    intros result Hres; [done|].
  cbn [paragraphs_loop]. destruct (strip para); [by apply IH|].
  pose proof (sentences_loop_sentences (re_split_sentences para) [] result Hres)
    as Hloop.
  destruct (sentences_loop (re_split_sentences para) [] result)
    as [current result']. cbn [snd] in Hloop.
  destruct (strip current) as [|x sentence] eqn:Hcur; [by apply IH|].
  apply IH, Forall_app. split; [done|]. constructor; [|constructor].
  split; [done|]. rewrite <- Hcur. apply strip_idem.
Qed.

(** X23: for a text that holds a character other than whitespace, every
    sentence returned is non-empty and has no leading or trailing
    whitespace. *)
Theorem split_into_sentences_stripped text :
  nonspace text <> [] ->
  Forall (fun s => s <> [] /\ strip s = s
                   /\ starts_with_space s = false
                   /\ ends_with isspace s = false)
    (split_into_sentences text).
Proof.
  intros Htext. unfold split_into_sentences.
  pose proof (paragraphs_loop_content (str_split [10] text) []) as H.
  pose proof (paragraphs_loop_sentences (str_split [10] text) []
                ltac:(constructor)) as Hall.
  unfold str_split in *. rewrite split_newline_content in H.
  destruct (paragraphs_loop (split_from (S (length text)) [10] [] text) [])
    as [|s0 result]; [simpl in H; by destruct Htext|].
  eapply Forall_impl; [apply Hall|]. simpl. intros s [Hne Hs].
  split; [done|]. split; [done|]. rewrite <- Hs.
  split; [apply strip_no_leading|apply strip_no_trailing].
Qed.

(** X24: a text made of whitespace only, the empty text included, comes
    back unchanged as the only element. *)
Theorem split_into_sentences_blank text :
  nonspace text = [] -> split_into_sentences text = [text].
Proof.
  intros Htext. unfold split_into_sentences.
  pose proof (paragraphs_loop_content (str_split [10] text) []) as H.
  pose proof (paragraphs_loop_sentences (str_split [10] text) []
                ltac:(constructor)) as Hall.
  unfold str_split in *. rewrite split_newline_content in H.
  destruct (paragraphs_loop (split_from (S (length text)) [10] [] text) [])
    as [|s0 result]; [done|].
  apply Forall_inv in Hall as [Hne Hs].
  cbn [concat rev app] in H. rewrite nonspace_app, Htext in H.
  apply app_eq_nil in H as [H _].
  rewrite <- Hs in Hne. destruct Hne.
  apply nonspace_nil_head; [|apply strip_no_leading].
  by rewrite nonspace_strip.
Qed.

Lemma no_terminator_split n cur s :
  Forall (fun c => is_terminator c = false) s ->
  re_split_from n cur s = [rev cur ++ s].
Proof.
  intros Hs. revert n cur.
  induction Hs as [|c s Hc _ IH]; intros [|n] cur; simpl;
    try done; try (by rewrite app_nil_r).
  rewrite Hc, IH. simpl. by rewrite <- app_assoc.
Qed.

Lemma no_newline_occurs s :
  Forall (fun c => c <> 10) s -> occurs [10] s = false.
Proof.
  induction 1 as [|c s Hc _ IH]; [done|].
  rewrite occurs_cons, IH, orb_false_r. cbn [startswith].
  rewrite andb_true_r. apply N.eqb_neq. congruence.
Qed.

Lemma ends_with_none p s :
  Forall (fun c => p c = false) s -> ends_with p s = false.
Proof.
  intros H. unfold ends_with. destruct (last s) as [c|] eqn:Hlast; [|done].
  rewrite Forall_forall in H. apply H.
  apply last_Some in Hlast as [l' ->]. apply elem_of_app. right.
  apply elem_of_cons. by left.
Qed.

(** X25: a text with no full stop, exclamation mark, question mark or
    newline that holds a character other than whitespace comes back as
    one sentence, the text without its surrounding whitespace. *)
Theorem split_into_sentences_single text :
  Forall (fun c => is_terminator c = false /\ c <> 10) text ->
  nonspace text <> [] ->
  split_into_sentences text = [strip text].
Proof.
  intros Hall Htext.
  assert (Forall (fun c => is_terminator c = false) text) as Hterm.
  { eapply Forall_impl; [apply Hall|]. by intros c [? _]. }
  assert (Forall (fun c => c <> 10) text) as Hnl.
  { eapply Forall_impl; [apply Hall|]. by intros c [_ ?]. }
  unfold split_into_sentences, str_split.
  rewrite split_from_no_occurrence by by apply no_newline_occurs.
  cbn [rev app paragraphs_loop].
  destruct (strip text) as [|x stripped] eqn:Hstrip.
  { destruct Htext. by apply strip_nil_nonspace. }
  unfold re_split_sentences. rewrite no_terminator_split by done.
  cbn [rev app sentences_loop].
  destruct text as [|c text]; [done|].
  remember (c :: text) as t eqn:Ht. clear Ht. cbn [app].
  unfold ends_sentence.
  rewrite ends_with_none by by apply Forall_rstrip.
  by rewrite Hstrip.
Qed.

(** ** Markup escaping *)

Lemma str_replace_char_app old new a b :
  str_replace_char old new (a ++ b)
  = str_replace_char old new a ++ str_replace_char old new b.
Proof. apply flat_map_app. Qed.

Lemma sentence_escaped_chars s :
  sentence_escaped s = flat_map escape_char s.
Proof.
  unfold sentence_escaped, escape_char.
  induction s as [|c s IH]; [done|].
  change (c :: s) with ([c] ++ s).
  rewrite !flat_map_app, <- IH.
  rewrite (str_replace_char_app 38), (str_replace_char_app 60),
    (str_replace_char_app 62).
  f_equal. cbn [str_replace_char flat_map app].
  destruct (N.eqb_spec c 38) as [->|H38]; [reflexivity|].
  cbn [flat_map app].
  destruct (N.eqb_spec c 60) as [->|H60]; [reflexivity|].
  cbn [flat_map app].
  by destruct (N.eqb_spec c 62) as [->|H62].
Qed.

(** X26: the escaped sentence holds no less-than and no greater-than
    sign, and a sentence without ampersand, less-than and greater-than
    signs is left unchanged. *)
Theorem sentence_escaped_safe sentence :
  Forall (fun c => c <> 60 /\ c <> 62) (sentence_escaped sentence)
  /\ (Forall (fun c => c <> 38 /\ c <> 60 /\ c <> 62) sentence ->
      sentence_escaped sentence = sentence).
Proof.
  rewrite sentence_escaped_chars. split.
  - induction sentence as [|c s IH]; [constructor|].
    cbn [flat_map]. apply Forall_app. split; [|done].
    unfold escape_char.
    destruct (N.eqb_spec c 38); [by repeat constructor|].
    destruct (N.eqb_spec c 60); [by repeat constructor|].
    destruct (N.eqb_spec c 62); by repeat constructor.
  - induction 1 as [|c s (H38 & H60 & H62) _ IH]; [done|].
    cbn [flat_map]. rewrite IH. unfold escape_char.
    apply N.eqb_neq in H38, H60, H62. by rewrite H38, H60, H62.
Qed.

Lemma escape_char_prefix c d x y :
  escape_char c ++ x = escape_char d ++ y -> c = d /\ x = y.
Proof.
  unfold escape_char.
  destruct (N.eqb_spec c 38) as [->|Hc38];
    [|destruct (N.eqb_spec c 60) as [->|Hc60];
      [|destruct (N.eqb_spec c 62) as [->|Hc62]]];
  (destruct (N.eqb_spec d 38) as [->|Hd38];
    [|destruct (N.eqb_spec d 60) as [->|Hd60];
      [|destruct (N.eqb_spec d 62) as [->|Hd62]]]);
  cbn; intros [=]; subst; done.
Qed.

(** X27: escaping loses no information: two sentences with the same
    escaped text are equal. *)
Theorem sentence_escaped_injective a b :
  sentence_escaped a = sentence_escaped b -> a = b.
Proof.
  rewrite !sentence_escaped_chars.
  assert (forall c, escape_char c <> []) as Hne.
  { intros c. unfold escape_char.
    by destruct (c =? 38), (c =? 60), (c =? 62). }
  revert b; induction a as [|c a IH]; intros [|d b]; cbn [flat_map].
  - done.
  - intros H. symmetry in H. apply app_eq_nil in H as [H _].
    by destruct (Hne d).
  - intros H. apply app_eq_nil in H as [H _]. by destruct (Hne c).
  - intros [-> H]%escape_char_prefix. f_equal. by apply IH.
Qed.

(** ** Handlers of the search buttons *)

(** X15: [get_channel_videos] never raises and touches no file; it makes
    between one and six calls, all of them [extract_info], the first
    being the search. *)
Theorem get_channel_videos_always_returns w channel_name max_results st :
  exists videos evs,
    get_channel_videos w channel_name max_results st
      = (Return videos, logged st evs (files st))
    /\ Forall (fun ev => is_extract_call ev = true) evs
    /\ (1 <= length evs <= 6)%nat
    /\ head evs = Some (CallExtractInfo (lit "ytsearch1:" ++ channel_name)).
Proof.
  destruct (get_channel_videos_run w channel_name max_results st)
    as (videos & urls & Hrun & Hlen).
  exists videos, (CallExtractInfo (lit "ytsearch1:" ++ channel_name)
                  :: List.map CallExtractInfo urls).
  split; [done|]. split; [|split; [|done]].
  - constructor; [done|]. apply Forall_map. by apply Forall_true.
  - simpl. rewrite length_map. lia.
Qed.


(** X29: for a search term that starts with http, an exception of the
    provider is shown with both prefixes before its message; [None] is
    stored and the only call made is the listing fetch of the term. *)
Theorem search_button_url_error w search_term st e :
  startswith (lit "http") search_term = true ->
  ydl_extract_info w search_term = Raise e ->
  search_button w search_term st
  = ((None, ShowError (error_prefix ++ fetch_failed_prefix ++ exn_msg e)),
     logged st [CallExtractInfo search_term] (files st)).
Proof.
  intros Hurl He. unfold search_button, main_search. rewrite Hurl.
  by rewrite _get_videos_from_url_run, He.
Qed.

(** X30: when the listing fetch of a quick button raises, the fallback
    name is never searched: the exception is shown with both prefixes
    before its message, [None] is stored and the only call made is that
    listing fetch. *)
Theorem quick_search_error w channel_url fallback_name st e :
  ydl_extract_info w channel_url = Raise e ->
  quick_search w channel_url fallback_name st
  = ((None, ShowError (error_prefix ++ fetch_failed_prefix ++ exn_msg e)),
     logged st [CallExtractInfo channel_url] (files st)).
Proof.
  intros He. unfold quick_search, bind.
  by rewrite _get_videos_from_url_run, He.
Qed.

(** ** Further runs on concrete collaborators *)

Lemma make_filesafe_title_fallback_witness :
  make_filesafe_title ascii_NFKD ascii_is_Mn (lit "?? :: **") = lit "script".
Proof.
  apply (make_filesafe_title_fallback ascii_NFKD ascii_is_Mn (lit "?? :: **")).
  repeat (constructor; [reflexivity|]). constructor.
Defined.

Lemma get_youtube_script_removes_audio_witness :
  exists st',
    get_youtube_script world_speech watch_url (lit "en") (lit "content")
      state_with_notes
    = (Return (Some (clean_text (lit " spoken   words "))), st')
    /\ audio_file_name ∉ files st'.
Proof.
  apply (get_youtube_script_removes_audio world_speech watch_url (lit "en")
           (lit "content") state_with_notes captions_disabled
           (lit " spoken   words "));
    reflexivity.
Defined.

Lemma _get_videos_from_url_length_witness :
  (1 <= length (videos_from 1 five_entries))%nat
  /\ (exists es,
        ydl_extract_info (world_listing five_entries) listing_url
          = Return (Some {| entries := Some es |})
        /\ (length (videos_from 1 five_entries) <= length es)%nat)
  /\ ((0 <= 10)%Z ->
      (Z.of_nat (length (videos_from 1 five_entries)) <= 10)%Z).
Proof.
  apply (_get_videos_from_url_length (world_listing five_entries) listing_url
           10 initial_state (videos_from 1 five_entries)).
  reflexivity.
Defined.

Lemma _get_videos_from_url_ranks_increase_witness :
  StronglySorted lt (List.map v_index (videos_from 1 five_entries))
  /\ NoDup (List.map v_index (videos_from 1 five_entries)).
Proof.
  apply (_get_videos_from_url_ranks_increase (world_listing five_entries)
           listing_url 10 initial_state (videos_from 1 five_entries)).
  reflexivity.
Defined.

Lemma _get_videos_from_url_fields_witness :
  Forall (fun v =>
            v_id v <> [] /\ v_url v <> []
            /\ (v_url v = lit "https://www.youtube.com/watch?v=" ++ v_id v
                \/ exists es entry,
                     ydl_extract_info (world_listing five_entries) listing_url
                       = Return (Some {| entries := Some es |})
                     /\ entry ∈ es /\ e_url entry = Some (v_url v)))
    (videos_from 1 five_entries).
Proof.
  apply (_get_videos_from_url_fields (world_listing five_entries) listing_url
           10 initial_state (videos_from 1 five_entries)).
  reflexivity.
Defined.

Lemma _get_videos_from_url_raises_witness :
  _get_videos_from_url world_captions listing_url 10 initial_state
  = (Raise {| exn_class_of := OtherException;
              exn_msg := fetch_failed_prefix ++ lit "no network" |},
     logged initial_state [CallExtractInfo listing_url] (files initial_state)).
Proof.
  apply (proj2 (_get_videos_from_url_raises world_captions listing_url 10
                  initial_state) (error "no network")).
  reflexivity.
Defined.

Lemma get_channel_videos_first_success_witness :
  get_channel_videos world_custom_url (lit "TED") 10 initial_state
  = (Return (Some (videos_from 1 [entry_with_id "v1"])),
     logged initial_state
       [CallExtractInfo (lit "ytsearch1:TED");
        CallExtractInfo (lit "https://www.youtube.com/@TED/videos");
        CallExtractInfo (lit "https://www.youtube.com/c/TED/videos")]
       (files initial_state)).
Proof.
  apply (get_channel_videos_first_success world_custom_url (lit "TED") 10
           initial_state (error "not found")
           [lit "https://www.youtube.com/@TED/videos"]
           (lit "https://www.youtube.com/c/TED/videos")
           [lit "https://www.youtube.com/user/TED/videos";
            lit "https://www.youtube.com/channel/TED/videos"]);
    [reflexivity|reflexivity| |reflexivity].
  constructor; [|constructor]. intros vs H. discriminate H.
Defined.

Lemma get_channel_videos_exhausted_witness :
  get_channel_videos world_captions (lit "TED") 10 initial_state
  = (Return (Some []),
     logged initial_state
       (CallExtractInfo (lit "ytsearch1:TED")
        :: List.map CallExtractInfo (possible_urls (lit "TED")))
       (files initial_state)).
Proof.
  apply (get_channel_videos_exhausted world_captions (lit "TED") 10
           initial_state (error "no network")); [reflexivity|].
  repeat (constructor; [intros vs H; discriminate H|]). constructor.
Defined.

Lemma get_channel_videos_listing_raises_witness :
  get_channel_videos world_search_only (lit "TED") 10 initial_state
  = (Return (Some []),
     logged initial_state
       (CallExtractInfo (lit "ytsearch1:TED")
        :: CallExtractInfo (lit "https://www.youtube.com/channel/UCabc/videos")
        :: List.map CallExtractInfo (possible_urls (lit "TED")))
       (files initial_state)).
Proof.
  apply (get_channel_videos_listing_raises world_search_only (lit "TED") 10
           initial_state search_hit []
           (lit "https://www.youtube.com/channel/UCabc/videos")
           (error "not found")); [reflexivity|reflexivity|reflexivity|].
  repeat (constructor; [intros vs H; discriminate H|]). constructor.
Defined.

Lemma format_duration_injective_witness :
  format_duration exact_int_of_float (Some 3725%Z) = lit "1:02:05"
  /\ 3725%Z = 3725%Z.
Proof.
  split; [reflexivity|].
  apply (format_duration_injective exact_int_of_float 3725 3725);
    solve [lia | reflexivity].
Defined.

Lemma format_duration_digits_witness :
  Forall (fun c => is_digit c \/ c = 58)
    (format_duration exact_int_of_float (Some (-1)%Z)).
Proof.
  apply (format_duration_digits exact_int_of_float (-1));
    [lia|reflexivity].
Defined.

Lemma split_into_sentences_stripped_witness :
  Forall (fun s => s <> [] /\ strip s = s
                   /\ starts_with_space s = false
                   /\ ends_with isspace s = false)
    (split_into_sentences (lit "Hello world. How are you? Fine!")).
Proof.
  apply (split_into_sentences_stripped
           (lit "Hello world. How are you? Fine!")).
  intros H. vm_compute in H. discriminate H.
Defined.

Lemma split_into_sentences_blank_witness :
  split_into_sentences (lit "  " ++ [10] ++ lit " ")
  = [lit "  " ++ [10] ++ lit " "].
Proof.
  apply (split_into_sentences_blank (lit "  " ++ [10] ++ lit " ")).
  reflexivity.
Defined.

Lemma split_into_sentences_single_witness :
  split_into_sentences (lit " no stop ") = [strip (lit " no stop ")].
Proof.
  apply (split_into_sentences_single (lit " no stop ")).
  - repeat (constructor; [split; [reflexivity|intros H; discriminate H]|]).
    constructor.
  - intros H. vm_compute in H. discriminate H.
Defined.

Lemma sentence_escaped_injective_witness :
  sentence_escaped (lit "a<b & c") = lit "a&lt;b &amp; c"
  /\ lit "a<b & c" = lit "a<b & c".
Proof.
  split; [reflexivity|].
  apply (sentence_escaped_injective (lit "a<b & c") (lit "a<b & c")).
  reflexivity.
Defined.


Lemma search_button_url_error_witness :
  search_button world_captions listing_url initial_state
  = ((None,
      ShowError (error_prefix ++ fetch_failed_prefix ++ lit "no network")),
     logged initial_state [CallExtractInfo listing_url] (files initial_state)).
Proof.
  apply (search_button_url_error world_captions listing_url initial_state
           (error "no network")); reflexivity.
Defined.

Lemma quick_search_error_witness :
  quick_search world_captions listing_url (lit "TED") initial_state
  = ((None,
      ShowError (error_prefix ++ fetch_failed_prefix ++ lit "no network")),
     logged initial_state [CallExtractInfo listing_url] (files initial_state)).
Proof.
  apply (quick_search_error world_captions listing_url (lit "TED")
           initial_state (error "no network")).
  reflexivity.
Defined.
